(** * bounty-webhooks: the event-detection and delivery core of [src/index.ts]

    A shallow embedding of the webhook relay: the snapshot differ
    ([detectEvents]), the signer ([signPayload]), the retrying delivery
    engine ([deliverWebhook]), the persistence flush ([saveState]) and the
    poll cycle ([pollAndDispatch]).

    The process-wide variables of the source ([state], [webhookEndpoints]),
    the state file and the traffic the process produces are gathered in one
    store, [Sys], which every operation threads explicitly.  Everything the
    process cannot decide by itself (the network, the clock, the file system,
    the crypto and JSON libraries, the environment variables) is read from a
    [World]. *)

From Stdlib Require Import ZArith Ascii String List Sorted Lia.
From stdpp Require Import base option list gmap strings pretty.

Local Open Scope string_scope.
Local Open Scope list_scope.
Local Open Scope Z_scope.

(** ** Configuration constants *)

Definition MAX_RETRIES : nat := 3.
Definition RETRY_BASE_MS : Z := 1000.

(** ** Types *)

(** [type EventType = "bounty.created" | "bounty.claimed" | ...] *)
Inductive EventType : Type :=
  | bounty_created
  | bounty_claimed
  | bounty_submitted
  | bounty_completed.

(** The string each member of the union stands for. *)
Definition eventTypeName (t : EventType) : string :=
  match t with
  | bounty_created => "bounty.created"
  | bounty_claimed => "bounty.claimed"
  | bounty_submitted => "bounty.submitted"
  | bounty_completed => "bounty.completed"
  end.

(** [interface WebhookEndpoint]; [secret?: string] is an optional field.
    [events] holds the strings as they are stored: the registration handler
    admits the four event names only, the update handler stores the array it
    is given. *)
Record WebhookEndpoint : Type := {
  ep_id : string;
  ep_url : string;
  ep_events : list string;
  ep_active : bool;
  ep_secret : option string;
  ep_createdAt : string
}.

(** A polled record, [Record<string, unknown>] in the source.  The fields the
    program reads are given the types its casts give them ([id as number],
    [status as string], the three nullable strings); the fields it only
    forwards inside [data] are kept as name/text pairs. *)
Record Bounty : Type := {
  b_id : Z;
  b_status : string;
  b_claimedBy : option string;
  b_submittedAt : option string;
  b_completedAt : option string;
  b_other : list (string * string)
}.

(** [interface WebhookEvent] *)
Record WebhookEvent : Type := {
  ev_id : string;
  ev_type : EventType;
  ev_bountyId : Z;
  ev_data : Bounty;
  ev_timestamp : string
}.

(** [interface BountySnapshot] *)
Record BountySnapshot : Type := {
  snap_id : Z;
  snap_status : string;
  snap_claimedBy : option string;
  snap_submittedAt : option string;
  snap_completedAt : option string
}.

Inductive DeliveryStatus : Type := success | failed.

(** [interface DeliveryLogEntry]; [statusCode?: number] is optional. *)
Record DeliveryLogEntry : Type := {
  le_eventId : string;
  le_endpointId : string;
  le_status : DeliveryStatus;
  le_attempts : nat;
  le_lastAttempt : string;
  le_statusCode : option Z
}.

(** [interface StateData]: [knownBounties] is a JS object used as a map from
    the record id to its snapshot, [deliveryLog] an array. *)
Record StateData : Type := {
  knownBounties : gmap Z BountySnapshot;
  deliveryLog : list DeliveryLogEntry
}.

(** ** The outside world *)

(** The POST a delivery attempt hands to [fetch]. *)
Record Request : Type := {
  req_url : string;
  req_method : string;
  req_headers : list (string * string);
  req_body : string
}.

(** What [await fetch(endpoint.url, ...)] does: it rejects (the [catch]
    branch) or resolves to a response, of which only [status] is read. *)
Inductive FetchResult : Type :=
  | fetch_throws
  | fetch_response (status : Z).

(** What [await res.json()] does on the upstream response, and how far the
    [for ... of] loop gets on the result, which the source casts unchecked:
    - [body_malformed]: the body is not JSON, [res.json()] rejects;
    - [body_json bounties]: the body is an array of records, the loop runs
      over all of them;
    - [body_broken_after processed]: the body parses, the loop runs over the
      records [processed] and then throws: the next element is [null], on which
      [bounty.id] throws, or the body is not iterable at all (an object, a
      number), in which case [processed] is empty. *)
Inductive UpstreamBody : Type :=
  | body_malformed
  | body_json (bounties : list Bounty)
  | body_broken_after (processed : list Bounty).

(** What [await fetch(`${API_BASE}/bounties`)] does. *)
Inductive UpstreamResult : Type :=
  | upstream_throws
  | upstream_response (status : Z) (body : UpstreamBody).

(** Everything the process reads from outside.  The oracles are indexed by
    how many times they were consulted before, so a run is a function of the
    world and of the initial store. *)
Record World : Type := {
  API_BASE : string;
  HMAC_SECRET : string;
  (** [createHmac("sha256", key).update(payload).digest("hex")] *)
  hmac_sha256_hex : string -> string -> string;
  (** [JSON.stringify(event)] *)
  JSON_stringify : WebhookEvent -> string;
  (** the n-th POST to a subscriber *)
  subscriber_fetch : nat -> Request -> FetchResult;
  (** the n-th GET of the upstream collection *)
  upstream_fetch : nat -> string -> UpstreamResult;
  (** the n-th reading of the clock, in epoch milliseconds *)
  Date_now : nat -> Z;
  (** [Date.prototype.toISOString] *)
  toISOString : Z -> string;
  (** whether the n-th [writeFileSync(STATE_FILE, ...)] returns (or throws) *)
  writeFileSync_ok : nat -> bool
}.

(** ** The store *)

Record Sys : Type := {
  (** [let state: StateData] *)
  state : StateData;
  (** [let webhookEndpoints: WebhookEndpoint[]] *)
  webhookEndpoints : list WebhookEndpoint;
  (** what [STATE_FILE] holds, [None] while it does not exist *)
  stateFile : option StateData;
  (** the POSTs sent to subscribers so far, oldest first *)
  sent : list Request;
  (** the delays slept so far, oldest first *)
  slept : list Z;
  (** how many times the upstream, the clock and the disk were used *)
  polls : nat;
  clockReads : nat;
  writes : nat
}.

Definition with_state (f : StateData -> StateData) (s : Sys) : Sys :=
  {| state := f (state s); webhookEndpoints := webhookEndpoints s;
     stateFile := stateFile s; sent := sent s; slept := slept s;
     polls := polls s; clockReads := clockReads s; writes := writes s |}.

Definition with_stateFile (f : option StateData) (s : Sys) : Sys :=
  {| state := state s; webhookEndpoints := webhookEndpoints s;
     stateFile := f; sent := sent s; slept := slept s;
     polls := polls s; clockReads := clockReads s; writes := S (writes s) |}.

Definition with_sent (r : Request) (s : Sys) : Sys :=
  {| state := state s; webhookEndpoints := webhookEndpoints s;
     stateFile := stateFile s; sent := sent s ++ [r]; slept := slept s;
     polls := polls s; clockReads := clockReads s; writes := writes s |}.

Definition with_slept (d : Z) (s : Sys) : Sys :=
  {| state := state s; webhookEndpoints := webhookEndpoints s;
     stateFile := stateFile s; sent := sent s; slept := slept s ++ [d];
     polls := polls s; clockReads := clockReads s; writes := writes s |}.

Definition with_poll (s : Sys) : Sys :=
  {| state := state s; webhookEndpoints := webhookEndpoints s;
     stateFile := stateFile s; sent := sent s; slept := slept s;
     polls := S (polls s); clockReads := clockReads s; writes := writes s |}.

Definition with_clockRead (s : Sys) : Sys :=
  {| state := state s; webhookEndpoints := webhookEndpoints s;
     stateFile := stateFile s; sent := sent s; slept := slept s;
     polls := polls s; clockReads := S (clockReads s); writes := writes s |}.

(** ** A state monad over the store *)

Definition M (A : Type) : Type := Sys -> A * Sys.

Definition ret {A} (a : A) : M A := fun s => (a, s).

Definition bind {A B} (m : M A) (k : A -> M B) : M B :=
  fun s => let '(a, s') := m s in k a s'.

Notation "'do' x <- m ; k" := (bind m (fun x => k))
  (at level 10, x name, m at level 100, k at level 200).
Notation "'do_' m ; k" := (bind m (fun _ => k))
  (at level 10, m at level 100, k at level 200).

Definition gets {A} (f : Sys -> A) : M A := fun s => (f s, s).
Definition modify (f : Sys -> Sys) : M unit := fun s => (tt, f s).

(** [for (const x of xs) { body(x) }] *)
Fixpoint forEach {A} (xs : list A) (body : A -> M unit) : M unit :=
  match xs with
  | [] => ret tt
  | x :: rest => do_ body x; forEach rest body
  end.

(** ** Persistence *)

(** [arr.slice(-n)]: the last [n] elements, the whole array when it is
    shorter. *)
Definition slice_last {A} (n : nat) (l : list A) : list A :=
  drop (length l - n)%nat l.

(** The first half of [saveState]: the log is cut before anything is
    written. *)
Definition trimLog (st : StateData) : StateData :=
  if (1000 <? length (deliveryLog st))%nat
  then {| knownBounties := knownBounties st;
          deliveryLog := slice_last 1000 (deliveryLog st) |}
  else st.

(** [saveState]: trims the in-memory log, then overwrites the state file.
    The result is [false] when [writeFileSync] throws; the file is then left
    as it was, and the in-memory log stays trimmed. *)
Definition saveState (W : World) : M bool :=
  do_ modify (with_state trimLog);
  fun s =>
    if writeFileSync_ok W (writes s)
    then (true, with_stateFile (Some (state s)) s)
    else (false, with_stateFile (stateFile s) s).

(** ** HMAC signing *)

(** [secret || HMAC_SECRET]: an absent and an empty secret are both falsy. *)
Definition resolveKey (W : World) (secret : option string) : string :=
  match secret with
  | Some k => if String.eqb k "" then HMAC_SECRET W else k
  | None => HMAC_SECRET W
  end.

Definition signPayload (W : World) (payload : string) (secret : option string)
  : string :=
  hmac_sha256_hex W (resolveKey W secret) payload.

(** ** Event detection *)

(** [events] is the local array of the source; [push] appends. *)
Definition detectEvents (oldSnapshot : option BountySnapshot)
    (newBounty : Bounty) : list EventType :=
  let events : list EventType := [] in
  let status := b_status newBounty in
  match oldSnapshot with
  | None =>
      let events := events ++ [bounty_created] in
      let events :=
        if String.eqb status "claimed" then events ++ [bounty_claimed]
        else events in
      let events :=
        if String.eqb status "submitted" then events ++ [bounty_submitted]
        else events in
      let events :=
        if String.eqb status "completed" then events ++ [bounty_completed]
        else events in
      events
  | Some old =>
      let events :=
        if negb (String.eqb (snap_status old) "claimed")
           && String.eqb status "claimed"
        then events ++ [bounty_claimed] else events in
      let events :=
        if negb (String.eqb (snap_status old) "submitted")
           && String.eqb status "submitted"
        then events ++ [bounty_submitted] else events in
      let events :=
        if negb (String.eqb (snap_status old) "completed")
           && String.eqb status "completed"
        then events ++ [bounty_completed] else events in
      events
  end.

(** ** Webhook delivery *)

(** [res.ok]: the status is in the range 200-299. *)
Definition res_ok (status : Z) : bool :=
  (200 <=? status) && (status <=? 299).

(** The request every attempt of one delivery sends. *)
Definition webhookRequest (endpoint : WebhookEndpoint) (event : WebhookEvent)
    (payload signature : string) : Request :=
  {| req_url := ep_url endpoint;
     req_method := "POST";
     req_headers :=
       [ ("Content-Type", "application/json");
         ("X-Signature", "sha256=" +:+ signature);
         ("X-Event-Type", eventTypeName (ev_type event));
         ("X-Event-Id", ev_id event);
         ("X-Webhook-Id", ep_id endpoint) ];
     req_body := payload |}.

(** [await fetch(endpoint.url, {...})] *)
Definition post (W : World) (r : Request) : M FetchResult :=
  fun s => (subscriber_fetch W (length (sent s)) r, with_sent r s).

(** [new Date()] / [Date.now()] *)
Definition readClock (W : World) : M Z :=
  fun s => (Date_now W (clockReads s), with_clockRead s).

(** [new Date().toISOString()] *)
Definition nowISO (W : World) : M string :=
  do ms <- readClock W; ret (toISOString W ms).

(** [state.deliveryLog.push(entry)] *)
Definition appendLog (entry : DeliveryLogEntry) (s : Sys) : Sys :=
  with_state (fun st =>
    {| knownBounties := knownBounties st;
       deliveryLog := deliveryLog st ++ [entry] |}) s.

Definition pushLog (entry : DeliveryLogEntry) : M unit :=
  modify (appendLog entry).

(** [await new Promise((r) => setTimeout(r, delay))] *)
Definition sleep (delay : Z) : M unit := modify (with_slept delay).

(** The tail of the loop body: the exponential backoff. *)
Definition backoff (attempt : nat) : M unit :=
  if (attempt <? MAX_RETRIES)%nat
  then sleep (RETRY_BASE_MS * 2 ^ (Z.of_nat attempt - 1))
  else ret tt.

(** The [for] loop of [deliverWebhook] together with what follows it.
    [remaining] counts the iterations left, [MAX_RETRIES + 1 - attempt]; at
    [0] the loop condition [attempt <= MAX_RETRIES] is false and control
    reaches the final [push]. *)
Fixpoint attemptLoop (W : World) (endpoint : WebhookEndpoint)
    (event : WebhookEvent) (payload signature : string)
    (remaining attempt : nat) : M bool :=
  match remaining with
  | O =>
      do lastAttempt <- nowISO W;
      do_ pushLog {| le_eventId := ev_id event;
                     le_endpointId := ep_id endpoint;
                     le_status := failed;
                     le_attempts := MAX_RETRIES;
                     le_lastAttempt := lastAttempt;
                     le_statusCode := None |};
      ret false
  | S remaining' =>
      do res <- post W (webhookRequest endpoint event payload signature);
      match res with
      | fetch_response status =>
          do lastAttempt <- nowISO W;
          do_ pushLog {| le_eventId := ev_id event;
                         le_endpointId := ep_id endpoint;
                         le_status := if res_ok status then success else failed;
                         le_attempts := attempt;
                         le_lastAttempt := lastAttempt;
                         le_statusCode := Some status |};
          if res_ok status then ret true
          else
            do_ backoff attempt;
            attemptLoop W endpoint event payload signature remaining'
              (S attempt)
      | fetch_throws =>
          do_ backoff attempt;
          attemptLoop W endpoint event payload signature remaining'
            (S attempt)
      end
  end.

Definition deliverWebhook (W : World) (endpoint : WebhookEndpoint)
    (event : WebhookEvent) : M bool :=
  let payload := JSON_stringify W event in
  let signature := signPayload W payload (ep_secret endpoint) in
  attemptLoop W endpoint event payload signature MAX_RETRIES 1.

(** ** Polling *)

(** [(x as string) || null]: the empty string is falsy. *)
Definition orNull (x : option string) : option string :=
  match x with
  | Some v => if String.eqb v "" then None else Some v
  | None => None
  end.

(** The snapshot written for a polled record. *)
Definition snapshotOf (bounty : Bounty) : BountySnapshot :=
  {| snap_id := b_id bounty;
     snap_status := b_status bounty;
     snap_claimedBy := orNull (b_claimedBy bounty);
     snap_submittedAt := orNull (b_submittedAt bounty);
     snap_completedAt := orNull (b_completedAt bounty) |}.

(** [state.knownBounties[id] = {...}] *)
Definition putSnapshot (id : Z) (snap : BountySnapshot) : M unit :=
  modify (with_state (fun st =>
    {| knownBounties := <[id := snap]> (knownBounties st);
       deliveryLog := deliveryLog st |})).

(** [ep.active && ep.events.includes(eventType)] *)
Definition isTarget (eventType : EventType) (ep : WebhookEndpoint) : bool :=
  ep_active ep
  && existsb (String.eqb (eventTypeName eventType)) (ep_events ep).

(** The body of the inner loop: build the event, pick the targets, deliver
    to each in turn. *)
Definition dispatchEvent (W : World) (bounty : Bounty)
    (eventType : EventType) : M unit :=
  do ms <- readClock W;
  do timestamp <- nowISO W;
  let event :=
    {| ev_id := "evt_" +:+ pretty (b_id bounty) +:+ "_"
                 +:+ eventTypeName eventType +:+ "_" +:+ pretty ms;
       ev_type := eventType;
       ev_bountyId := b_id bounty;
       ev_data := bounty;
       ev_timestamp := timestamp |} in
  do endpoints <- gets webhookEndpoints;
  let targets := List.filter (isTarget eventType) endpoints in
  forEach targets (fun target =>
    do _ <- deliverWebhook W target event; ret tt).

(** The first two statements of the outer loop body: read the previous
    snapshot, run the detector. *)
Definition lookupAndDetect (bounty : Bounty) : M (list EventType) :=
  do old <- gets (fun s => knownBounties (state s) !! b_id bounty);
  ret (detectEvents old bounty).

(** The body of the outer loop. *)
Definition processBounty (W : World) (bounty : Bounty) : M unit :=
  do events <- lookupAndDetect bounty;
  do_ putSnapshot (b_id bounty) (snapshotOf bounty);
  forEach events (dispatchEvent W bounty).

(** [await fetch(`${API_BASE}/bounties`)] *)
Definition getBounties (W : World) : M UpstreamResult :=
  fun s => (upstream_fetch W (polls s) (API_BASE W +:+ "/bounties"), with_poll s).

(** One poll cycle.  Every exception raised inside the [try] ends the cycle
    in the [catch], which only logs to the console. *)
Definition pollAndDispatch (W : World) : M unit :=
  do res <- getBounties W;
  match res with
  | upstream_throws => ret tt
  | upstream_response status body =>
      if negb (res_ok status) then ret tt
      else
        match body with
        | body_malformed => ret tt
        | body_json bounties =>
            do_ forEach bounties (processBounty W);
            do _ <- saveState W;
            ret tt
        | body_broken_after processed =>
            forEach processed (processBounty W)
        end
  end.

(** ** Vocabulary of the statements *)

(** The lifecycle the specification has in mind: open, then claimed, then
    submitted, then completed.  Other status strings have no place in it. *)
Definition lifecycleRank (status : string) : option nat :=
  if String.eqb status "open" then Some 0%nat
  else if String.eqb status "claimed" then Some 1%nat
  else if String.eqb status "submitted" then Some 2%nat
  else if String.eqb status "completed" then Some 3%nat
  else None.

(** The current status is earlier in the lifecycle than the previous one. *)
Definition isRegression (previous current : string) : bool :=
  match lifecycleRank previous, lifecycleRank current with
  | Some p, Some c => (c <? p)%nat
  | _, _ => false
  end.

(** The event that announces a status, if any. *)
Definition statusEvents (status : string) : list EventType :=
  if String.eqb status "claimed" then [bounty_claimed]
  else if String.eqb status "submitted" then [bounty_submitted]
  else if String.eqb status "completed" then [bounty_completed]
  else [].

(** created < claimed < submitted < completed *)
Definition eventRank (t : EventType) : nat :=
  match t with
  | bounty_created => 0
  | bounty_claimed => 1
  | bounty_submitted => 2
  | bounty_completed => 3
  end.

(** An attempt fails when [fetch] rejects or the response is not 2xx. *)
Definition attemptFails (r : FetchResult) : bool :=
  match r with
  | fetch_throws => true
  | fetch_response status => negb (res_ok status)
  end.

(** The request of a delivery, as [deliverWebhook] builds it. *)
Definition deliveryRequest (W : World) (endpoint : WebhookEndpoint)
    (event : WebhookEvent) : Request :=
  webhookRequest endpoint event (JSON_stringify W event)
    (signPayload W (JSON_stringify W event) (ep_secret endpoint)).

(** What the world answers to the [count] POSTs of [r] that follow the
    first [n0] POSTs of the run. *)
Definition answers (W : World) (r : Request) (n0 count : nat)
  : list FetchResult :=
  map (fun k => subscriber_fetch W (n0 + k) r) (seq 0 count).

(** What a log entry says, its time stamp left out. *)
Definition outcomeOf (e : DeliveryLogEntry) : DeliveryStatus * nat * option Z :=
  (le_status e, le_attempts e, le_statusCode e).

(** One expected outcome per answered attempt, numbered from [attempt]:
    an attempt on which [fetch] rejected leaves no trace, an attempt that got
    a response is recorded with its number and status code. *)
Fixpoint responseOutcomes (attempt : nat) (rs : list FetchResult)
  : list (DeliveryStatus * nat * option Z) :=
  match rs with
  | [] => []
  | fetch_throws :: rest => responseOutcomes (S attempt) rest
  | fetch_response status :: rest =>
      ((if res_ok status then success else failed), attempt, Some status)
        :: responseOutcomes (S attempt) rest
  end.

(** The first header of that name. *)
Fixpoint getHeader (name : string) (headers : list (string * string))
  : option string :=
  match headers with
  | [] => None
  | (n, v) :: rest => if String.eqb n name then Some v else getHeader name rest
  end.

(** The entry pushed after the loop, when the clock is read in store [s]. *)
Definition finalEntry (W : World) (endpoint : WebhookEndpoint)
    (event : WebhookEvent) (s : Sys) : DeliveryLogEntry :=
  {| le_eventId := ev_id event; le_endpointId := ep_id endpoint;
     le_status := failed; le_attempts := MAX_RETRIES;
     le_lastAttempt := toISOString W (Date_now W (clockReads s));
     le_statusCode := None |}.

(** The entry pushed inside the loop for a response to attempt [a]. *)
Definition responseEntry (W : World) (endpoint : WebhookEndpoint)
    (event : WebhookEvent) (a : nat) (status : Z) (s : Sys)
  : DeliveryLogEntry :=
  {| le_eventId := ev_id event; le_endpointId := ep_id endpoint;
     le_status := if res_ok status then success else failed;
     le_attempts := a;
     le_lastAttempt := toISOString W (Date_now W (clockReads s));
     le_statusCode := Some status |}.

(** An entry belongs to the delivery of [event] to [endpoint]. *)
Definition entryOf (endpoint : WebhookEndpoint) (event : WebhookEvent)
    (e : DeliveryLogEntry) : Prop :=
  le_eventId e = ev_id event /\ le_endpointId e = ep_id endpoint.

(** Running a computation: its result, and the store it leaves. *)
Definition eval {A} (m : M A) (s : Sys) : A := fst (m s).
Definition exec {A} (m : M A) (s : Sys) : Sys := snd (m s).

(** The snapshot store, [state.knownBounties]. *)
Definition snapshots (s : Sys) : gmap Z BountySnapshot :=
  knownBounties (state s).

(** A computation leaves a component of the store as it found it. *)
Definition preserves {A X} (proj : Sys -> X) (m : M A) : Prop :=
  forall s, proj (exec m s) = proj s.



(** The URL a cycle polls. *)
Definition bountiesUrl (W : World) : string := API_BASE W +:+ "/bounties".

(** ** Concrete inputs *)

Definition bounty42 (status : string) : Bounty :=
  {| b_id := 42; b_status := status; b_claimedBy := None;
     b_submittedAt := None; b_completedAt := None;
     b_other := [("title", "Fix the relay")] |}.

(** A stand-in for the MAC and for the serializer, and a world built on
    them: subscribers answer the n-th POST with [answer n], the upstream
    answers every GET with [up]. *)
Definition toyHmac (key payload : string) : string :=
  "mac(" +:+ key +:+ "," +:+ payload +:+ ")".

Definition toyStringify (e : WebhookEvent) : string :=
  "{id:" +:+ ev_id e +:+ ",type:" +:+ eventTypeName (ev_type e) +:+ "}".

Definition worldWith (answer : nat -> FetchResult) (up : UpstreamResult)
  : World :=
  {| API_BASE := "https://bounty.owockibot.xyz";
     HMAC_SECRET := "change-me-in-production";
     hmac_sha256_hex := toyHmac;
     JSON_stringify := toyStringify;
     subscriber_fetch := fun n _ => answer n;
     upstream_fetch := fun _ _ => up;
     Date_now := fun n => 1705312800000 + Z.of_nat n;
     toISOString := fun ms => pretty ms;
     writeFileSync_ok := fun _ => true |}.

Definition endpoint1 : WebhookEndpoint :=
  {| ep_id := "wh_1"; ep_url := "https://example.org/hook";
     ep_events := ["bounty.created"; "bounty.claimed"]; ep_active := true;
     ep_secret := Some "s3cret"; ep_createdAt := "2025-01-15T12:00:00.000Z" |}.

Definition event1 : WebhookEvent :=
  {| ev_id := "evt_42_bounty.created_1705312800000";
     ev_type := bounty_created; ev_bountyId := 42;
     ev_data := bounty42 "open";
     ev_timestamp := "2025-01-15T12:00:00.000Z" |}.

Definition emptySys : Sys :=
  {| state := {| knownBounties := ∅; deliveryLog := [] |};
     webhookEndpoints := [endpoint1]; stateFile := None;
     sent := []; slept := []; polls := 0; clockReads := 0; writes := 0 |}.

(** Subscribers that answer 500 to everything. *)
Definition world500 : World :=
  worldWith (fun _ => fetch_response 500) upstream_throws.

(** Subscribers that are unreachable. *)
Definition worldDown : World :=
  worldWith (fun _ => fetch_throws) upstream_throws.

(** Subscribers that answer 500 to the first POST and 200 afterwards. *)
Definition world500then200 : World :=
  worldWith (fun n => if (n <? 1)%nat then fetch_response 500
                      else fetch_response 200) upstream_throws.

(** Subscribers that are unreachable for the first POST and answer 200
    afterwards. *)
Definition worldDownThen200 : World :=
  worldWith (fun n => if (n <? 1)%nat then fetch_throws
                      else fetch_response 200) upstream_throws.

(** A log of [n] entries, numbered by their attempt count, oldest first. *)
Definition numberedEntry (k : nat) : DeliveryLogEntry :=
  {| le_eventId := "evt_42_bounty.created_1705312800000";
     le_endpointId := "wh_1"; le_status := success; le_attempts := k;
     le_lastAttempt := "2025-01-15T12:00:00.000Z"; le_statusCode := Some 200 |}.

Definition sysWithLog (n : nat) : Sys :=
  with_state (fun st =>
    {| knownBounties := knownBounties st;
       deliveryLog := map numberedEntry (seq 0 n) |}) emptySys.

(** A store that already tracks record 7 as completed and record 42 as
    open. *)
Definition bounty7 : Bounty :=
  {| b_id := 7; b_status := "completed"; b_claimedBy := Some "alice";
     b_submittedAt := Some "2025-01-10T09:00:00.000Z";
     b_completedAt := Some "2025-01-12T09:00:00.000Z"; b_other := [] |}.

Definition trackingSys : Sys :=
  with_state (fun st =>
    {| knownBounties :=
         <[7 := snapshotOf bounty7]>
           (<[42 := snapshotOf (bounty42 "open")]> (knownBounties st));
       deliveryLog := deliveryLog st |}) emptySys.

(** An upstream that serves record 42, still open, with a new claimant
    field. *)
Definition bounty42seen : Bounty :=
  {| b_id := 42; b_status := "open"; b_claimedBy := Some "bob";
     b_submittedAt := None; b_completedAt := None; b_other := [] |}.

Definition worldServing (bounties : list Bounty) : World :=
  worldWith (fun _ => fetch_response 200)
            (upstream_response 200 (body_json bounties)).



(** An upstream whose body parses, holds record 42, now claimed, and then
    [null]. *)
Definition worldUpstreamBroken : World :=
  worldWith (fun _ => fetch_response 200)
            (upstream_response 200 (body_broken_after [bounty42 "claimed"])).

(** ** Further vocabulary *)

(** The delay slept after a failed attempt, if any: none after the last
    one. *)
Definition backoffDelay (attempt : nat) : list Z :=
  if (attempt <? MAX_RETRIES)%nat
  then [RETRY_BASE_MS * 2 ^ (Z.of_nat attempt - 1)]
  else [].

(** The delays slept after [count] failed attempts, the first of which is
    numbered [attempt]. *)
Definition backoffDelays (attempt count : nat) : list Z :=
  flat_map backoffDelay (seq attempt count).




(** ** Start-up *)

(** What reading and parsing a JSON file gives: the file is not there, it
    is there but [JSON.parse] throws, or it holds a value. *)
Inductive FileRead (A : Type) : Type :=
  | file_absent
  | file_unparsable
  | file_holds (a : A).
Arguments file_absent {A}.
Arguments file_unparsable {A}.
Arguments file_holds {A} a.

(** [{ knownBounties: {}, deliveryLog: [] }] *)
Definition emptyState : StateData :=
  {| knownBounties := ∅; deliveryLog := [] |}.

(** [loadState], on what the state file reads as. *)
Definition loadStateFrom (f : FileRead StateData) : M unit :=
  match f with
  | file_absent => ret tt
  | file_unparsable => modify (with_state (fun _ => emptyState))
  | file_holds st => modify (with_state (fun _ => st))
  end.

(** The state file as the store has it: absent, or holding what the last
    successful [saveState] wrote. *)
Definition readStateFile (s : Sys) : FileRead StateData :=
  match stateFile s with
  | None => file_absent
  | Some st => file_holds st
  end.

Definition loadState : M unit := fun s => loadStateFrom (readStateFile s) s.

(** A process that has just started: the two module variables hold their
    initial values, the files and the outside world are what they were. *)
Definition freshProcess (s : Sys) : Sys :=
  {| state := emptyState; webhookEndpoints := [];
     stateFile := stateFile s; sent := sent s; slept := slept s;
     polls := polls s; clockReads := clockReads s; writes := writes s |}.

(** ** The management API *)

(** What the management side reads from outside, beyond the relay's world. *)
Record AdminWorld : Type := {
  relay : World;
  (** [`wh_${ms.toString(36)}_${Math.random().toString(36).slice(2, 8)}`]
      for the clock reading [ms] and the n-th draw of [Math.random] *)
  renderId : Z -> nat -> string;
  (** whether the n-th [writeFileSync(CONFIG_FILE, ...)] returns (or throws) *)
  configWrite_ok : nat -> bool
}.

(** The whole process: the relay's store, the registrations file and the
    two counters of the management side. *)
Record Server : Type := {
  core : Sys;
  (** what [CONFIG_FILE] holds, [None] while it does not exist *)
  configFile : option (list WebhookEndpoint);
  configWrites : nat;
  randomDraws : nat
}.

Definition with_core (f : Sys -> Sys) (srv : Server) : Server :=
  {| core := f (core srv); configFile := configFile srv;
     configWrites := configWrites srv; randomDraws := randomDraws srv |}.

Definition with_endpoints (l : list WebhookEndpoint) (s : Sys) : Sys :=
  {| state := state s; webhookEndpoints := l;
     stateFile := stateFile s; sent := sent s; slept := slept s;
     polls := polls s; clockReads := clockReads s; writes := writes s |}.

(** [saveWebhooks]: [false] stands for [writeFileSync] throwing, the file
    being then left as it was. *)
Definition saveWebhooks (A : AdminWorld) (srv : Server) : bool * Server :=
  if configWrite_ok A (configWrites srv)
  then (true,
        {| core := core srv;
           configFile := Some (webhookEndpoints (core srv));
           configWrites := S (configWrites srv);
           randomDraws := randomDraws srv |})
  else (false,
        {| core := core srv; configFile := configFile srv;
           configWrites := S (configWrites srv);
           randomDraws := randomDraws srv |}).

(** [loadWebhooks], on what the registrations file reads as. *)
Definition loadWebhooksFrom (f : FileRead (list WebhookEndpoint))
    (srv : Server) : Server :=
  match f with
  | file_absent => srv
  | file_unparsable => with_core (with_endpoints []) srv
  | file_holds l => with_core (with_endpoints l) srv
  end.

Definition readConfigFile (srv : Server) : FileRead (list WebhookEndpoint) :=
  match configFile srv with
  | None => file_absent
  | Some l => file_holds l
  end.

Definition loadWebhooks (srv : Server) : Server :=
  loadWebhooksFrom (readConfigFile srv) srv.

(** [generateId]: one reading of the clock, one draw of [Math.random]. *)
Definition generateId (A : AdminWorld) (srv : Server) : string * Server :=
  let '(ms, c) := readClock (relay A) (core srv) in
  (renderId A ms (randomDraws srv),
   {| core := c; configFile := configFile srv;
      configWrites := configWrites srv;
      randomDraws := S (randomDraws srv) |}).

(** The [events] member of a request body: missing or falsy, truthy but not
    an array, or an array, whose elements are taken to be strings. *)
Inductive EventsField : Type :=
  | events_absent
  | events_not_array
  | events_array (names : list string).

(** The members of a JSON body the handlers look at.  [url] and [secret] are
    strings when present and [active] a boolean, as the casts of the source
    say; a body that is a JSON number, string or boolean has none of them. *)
Record BodyFields : Type := {
  f_url : option string;
  f_events : EventsField;
  f_active : option bool;
  f_secret : option string
}.

(** What [await req.json()] and the first access to the result do: throw
    (the body is not JSON, or it is [null]), or give the members. *)
Inductive ApiBody : Type :=
  | json_unreadable
  | json_object (o : BodyFields).

(** [Number(url.searchParams.get("limit"))], taken to be [NaN] or an
    integer. *)
Inductive JsNumber : Type :=
  | js_NaN
  | js_int (z : Z).

Record ApiRequest : Type := {
  rq_method : string;
  rq_pathname : string;
  rq_limit : JsNumber;
  rq_body : ApiBody
}.

Inductive Payload : Type :=
  | p_endpoints (l : list WebhookEndpoint)
  | p_endpoint (e : WebhookEndpoint)
  | p_error (message : string)
  | p_deliveries (l : list DeliveryLogEntry)
  | p_health (registeredWebhooks activeWebhooks trackedBounties
              totalDeliveries : nat)
  | p_empty.

Record Response : Type := {
  rs_status : Z;
  rs_payload : Payload
}.

(** How a call of the [fetch] handler ends: with a response, or with an
    exception that escapes it.  [outside_model] marks the one path on which
    the stored endpoint would stop being a [WebhookEndpoint]: a PATCH whose
    [events] is truthy and not an array stores it as it is, and the
    endpoint's [events] is then no array of strings any more. *)
Inductive Outcome : Type :=
  | responded (r : Response)
  | handler_throws
  | outside_model.

Definition json (status : Z) (p : Payload) : Outcome :=
  responded {| rs_status := status; rs_payload := p |}.

(** The four names of [validEvents], in its order. *)
Definition validEvents : list string :=
  [ "bounty.created"; "bounty.claimed"; "bounty.submitted";
    "bounty.completed" ].

(** [validEvents.includes(e)] *)
Definition isValidEvent (e : string) : bool :=
  existsb (String.eqb e) validEvents.

(** [s.split(sep)] for a one-character separator. *)
Fixpoint splitOn (sep : Ascii.ascii) (s : string) : list string :=
  match s with
  | EmptyString => [EmptyString]
  | String c rest =>
      if Ascii.eqb c sep then EmptyString :: splitOn sep rest
      else match splitOn sep rest with
           | h :: t => String c h :: t
           | [] => [String c EmptyString]
           end
  end.

(** [url.pathname.split("/")[2]], [None] standing for [undefined]. *)
Definition pathId (pathname : string) : option string :=
  splitOn "/"%char pathname !! 2%nat.

(** [ep.id === id] *)
Definition hasId (id : option string) (ep : WebhookEndpoint) : bool :=
  match id with
  | Some i => String.eqb (ep_id ep) i
  | None => false
  end.

(** [arr.findIndex(p)], [None] standing for [-1]. *)
Fixpoint findIndex {A} (p : A -> bool) (l : list A) : option nat :=
  match l with
  | [] => None
  | x :: rest => if p x then Some 0%nat else S <$> findIndex p rest
  end.

(** [arr.slice(start)] for an integer [start]: a negative one counts from
    the end, and both are clamped to the array. *)
Definition js_slice {A} (start : Z) (l : list A) : list A :=
  let len := Z.of_nat (length l) in
  let k := if start <? 0 then Z.max (len + start) 0 else Z.min start len in
  drop (Z.to_nat k) l.

(** [Number(...) || 50] *)
Definition limitOr50 (n : JsNumber) : Z :=
  match n with
  | js_NaN => 50
  | js_int z => if z =? 0 then 50 else z
  end.

(** The array [if (updates.events)] lets through: any array, the empty one
    too, whatever strings it holds; a missing or falsy [events] is skipped. *)
Definition givenEvents (o : BodyFields) : option (list string) :=
  match f_events o with
  | events_array names => Some names
  | events_absent | events_not_array => None
  end.

(** The four assignments of the PATCH handler; none of them checks what it
    stores. *)
Definition applyUpdates (o : BodyFields) (events : option (list string))
    (ep : WebhookEndpoint) : WebhookEndpoint :=
  {| ep_id := ep_id ep;
     ep_url := match f_url o with
               | Some u => if String.eqb u "" then ep_url ep else u
               | None => ep_url ep
               end;
     ep_events := match events with
                  | Some l => l
                  | None => ep_events ep
                  end;
     ep_active := match f_active o with
                  | Some a => a
                  | None => ep_active ep
                  end;
     ep_secret := match f_secret o with
                  | Some k => Some k
                  | None => ep_secret ep
                  end;
     ep_createdAt := ep_createdAt ep |}.

(** The POST /webhooks branch. *)
Definition registerWebhook (A : AdminWorld) (body : ApiBody) (srv : Server)
  : Outcome * Server :=
  match body with
  | json_unreadable => (json 400 (p_error "Invalid JSON body"), srv)
  | json_object o =>
      match f_url o, f_events o with
      | Some hookUrl, events_array events =>
          if String.eqb hookUrl ""
          then (json 400 (p_error "url and events[] are required"), srv)
          else
            let invalidEvents :=
              List.filter (fun e => negb (isValidEvent e)) events in
            if (0 <? length invalidEvents)%nat
            then (json 400 (p_error
                    ("Invalid events: " +:+ String.concat ", " invalidEvents
                     +:+ ". Valid: " +:+ String.concat ", " validEvents)),
                  srv)
            else
              let '(id, srv1) := generateId A srv in
              let '(createdAt, c2) := nowISO (relay A) (core srv1) in
              let endpoint :=
                {| ep_id := id; ep_url := hookUrl;
                   ep_events := events; ep_active := true;
                   ep_secret := f_secret o; ep_createdAt := createdAt |} in
              let srv2 :=
                with_core (fun _ =>
                  with_endpoints (webhookEndpoints c2 ++ [endpoint]) c2) srv1 in
              let '(saved, srv3) := saveWebhooks A srv2 in
              if saved then (json 201 (p_endpoint endpoint), srv3)
              else (json 400 (p_error "Invalid JSON body"), srv3)
      | _, _ => (json 400 (p_error "url and events[] are required"), srv)
      end
  end.

(** The GET /webhooks/:id branch. *)
Definition getWebhook (pathname : string) (srv : Server) : Outcome * Server :=
  match List.find (hasId (pathId pathname)) (webhookEndpoints (core srv)) with
  | None => (json 404 (p_error "Not found"), srv)
  | Some endpoint => (json 200 (p_endpoint endpoint), srv)
  end.

(** The PATCH /webhooks/:id branch. *)
Definition updateWebhook (A : AdminWorld) (pathname : string) (body : ApiBody)
    (srv : Server) : Outcome * Server :=
  let endpoints := webhookEndpoints (core srv) in
  match findIndex (hasId (pathId pathname)) endpoints with
  | None => (json 404 (p_error "Not found"), srv)
  | Some idx =>
      match body with
      | json_unreadable => (json 400 (p_error "Invalid JSON body"), srv)
      | json_object o =>
          match f_events o, endpoints !! idx with
          | events_not_array, _ => (outside_model, srv)
          | _, Some current =>
              let endpoint := applyUpdates o (givenEvents o) current in
              let srv1 :=
                with_core (with_endpoints (<[idx := endpoint]> endpoints)) srv in
              let '(saved, srv2) := saveWebhooks A srv1 in
              if saved then (json 200 (p_endpoint endpoint), srv2)
              else (json 400 (p_error "Invalid JSON body"), srv2)
          | _, None =>
              (* [webhookEndpoints[idx]] is always there: [idx] comes from
                 [findIndex] *)
              (json 400 (p_error "Invalid JSON body"), srv)
          end
      end
  end.

(** The DELETE /webhooks/:id branch; [saveWebhooks] is called outside any
    [try] here. *)
Definition deleteWebhook (A : AdminWorld) (pathname : string) (srv : Server)
  : Outcome * Server :=
  let endpoints := webhookEndpoints (core srv) in
  match findIndex (hasId (pathId pathname)) endpoints with
  | None => (json 404 (p_error "Not found"), srv)
  | Some idx =>
      let srv1 := with_core (with_endpoints (delete idx endpoints)) srv in
      let '(saved, srv2) := saveWebhooks A srv1 in
      if saved then (json 204 p_empty, srv2) else (handler_throws, srv2)
  end.

(** The GET /deliveries branch. *)
Definition getDeliveries (limit : JsNumber) (srv : Server) : Outcome * Server :=
  (json 200 (p_deliveries
     (js_slice (- limitOr50 limit) (deliveryLog (state (core srv))))), srv).

(** The GET /health branch. *)
Definition getHealth (srv : Server) : Outcome * Server :=
  (json 200 (p_health
     (length (webhookEndpoints (core srv)))
     (length (List.filter ep_active (webhookEndpoints (core srv))))
     (size (knownBounties (state (core srv))))
     (length (deliveryLog (state (core srv))))), srv).

(** The [fetch] handler of [Bun.serve]: the branches in source order. *)
Definition handleRequest (A : AdminWorld) (rq : ApiRequest) (srv : Server)
  : Outcome * Server :=
  let method := rq_method rq in
  let pathname := rq_pathname rq in
  if String.eqb method "GET" && String.eqb pathname "/webhooks"
  then (json 200 (p_endpoints (webhookEndpoints (core srv))), srv)
  else if String.eqb method "POST" && String.eqb pathname "/webhooks"
  then registerWebhook A (rq_body rq) srv
  else if String.eqb method "GET" && String.prefix "/webhooks/" pathname
  then getWebhook pathname srv
  else if String.eqb method "PATCH" && String.prefix "/webhooks/" pathname
  then updateWebhook A pathname (rq_body rq) srv
  else if String.eqb method "DELETE" && String.prefix "/webhooks/" pathname
  then deleteWebhook A pathname srv
  else if String.eqb method "GET" && String.eqb pathname "/deliveries"
  then getDeliveries (rq_limit rq) srv
  else if String.eqb method "GET" && String.eqb pathname "/health"
  then getHealth srv
  else (json 404 (p_error "Not found"), srv).

(** The start of the process, up to the first poll: [loadState] and
    [loadWebhooks] on a fresh process. *)
Definition boot (srv : Server) : Server :=
  loadWebhooks (with_core (fun s => exec loadState (freshProcess s)) srv).

(** ** Vocabulary and inputs for the management API *)

(** A registration body the POST handler accepts: a non-empty [url] and an
    [events] array of valid names. *)
Definition wellFormedRegistration (body : ApiBody) : bool :=
  match body with
  | json_unreadable => false
  | json_object o =>
      match f_url o, f_events o with
      | Some hookUrl, events_array names =>
          negb (String.eqb hookUrl "") && forallb isValidEvent names
      | _, _ => false
      end
  end.

(** The endpoint a well-formed registration creates in server [srv]. *)
Definition registeredEndpoint (A : AdminWorld) (hookUrl : string)
    (names : list string) (secret : option string) (srv : Server)
  : WebhookEndpoint :=
  {| ep_id := renderId A (Date_now (relay A) (clockReads (core srv)))
                (randomDraws srv);
     ep_url := hookUrl;
     ep_events := names;
     ep_active := true;
     ep_secret := secret;
     ep_createdAt :=
       toISOString (relay A)
         (Date_now (relay A) (S (clockReads (core srv)))) |}.

(** What belongs to the relay proper: snapshots and log, the state file,
    the traffic, and the counters of polls and state writes. *)
Definition relayPart (srv : Server)
  : StateData * option StateData * list Request * list Z * nat * nat :=
  (state (core srv), stateFile (core srv), sent (core srv), slept (core srv),
   polls (core srv), writes (core srv)).

Definition adminWorld (configWrites_ok : bool) : AdminWorld :=
  {| relay := worldDown;
     renderId := fun ms n => "wh_" +:+ pretty ms +:+ "_" +:+ pretty n;
     configWrite_ok := fun _ => configWrites_ok |}.

Definition endpoint2 : WebhookEndpoint :=
  {| ep_id := "wh_2"; ep_url := "https://example.org/other";
     ep_events := ["bounty.completed"]; ep_active := true;
     ep_secret := None; ep_createdAt := "2025-01-16T12:00:00.000Z" |}.

Definition server12 : Server :=
  {| core := with_endpoints [endpoint1; endpoint2] (sysWithLog 60);
     configFile := Some [endpoint1; endpoint2];
     configWrites := 0; randomDraws := 0 |}.

Definition noFields : BodyFields :=
  {| f_url := None; f_events := events_absent; f_active := None;
     f_secret := None |}.

Definition apiRequest (method pathname : string) (body : ApiBody) : ApiRequest :=
  {| rq_method := method; rq_pathname := pathname; rq_limit := js_NaN;
     rq_body := body |}.

Definition registration (url : string) (names : list string) : ApiBody :=
  json_object {| f_url := Some url; f_events := events_array names;
                 f_active := None; f_secret := Some "k" |}.

Definition deactivationFields : BodyFields :=
  {| f_url := None; f_events := events_absent;
     f_active := Some false; f_secret := None |}.

Definition deactivation : ApiBody := json_object deactivationFields.

(** A PATCH body that deactivates and stores an event name outside the
    four. *)
Definition paidFields : BodyFields :=
  {| f_url := None; f_events := events_array ["bounty.paid"];
     f_active := Some false; f_secret := None |}.

(** ** Event detection: proofs *)

Ltac case_status s :=
  let E := fresh "E" in
  destruct (String.eqb_spec s "claimed") as [E|?];
  [ rewrite ?E in *
  | destruct (String.eqb_spec s "submitted") as [E|?];
    [ rewrite ?E in *
    | destruct (String.eqb_spec s "completed") as [E|?];
      [ rewrite ?E in * | ] ] ].

Lemma detectEvents_None (b : Bounty) :
  detectEvents None b = bounty_created :: statusEvents (b_status b).
Proof.
  unfold detectEvents, statusEvents.
  destruct b as [i st c sa ca o]; simpl.
  case_status st; reflexivity.
Qed.

Lemma detectEvents_Some (old : BountySnapshot) (b : Bounty) :
  detectEvents (Some old) b =
    if String.eqb (snap_status old) (b_status b) then []
    else statusEvents (b_status b).
Proof.
  unfold detectEvents, statusEvents.
  destruct b as [i st c sa ca o], old as [i' st' c' sa' ca']; simpl.
  destruct (String.eqb_spec st' st) as [->|Hne].
  - case_status st; reflexivity.
  - case_status st; simpl;
      repeat match goal with
      | |- context [String.eqb ?a ?b] =>
          destruct (String.eqb_spec a b); try congruence; simpl
      end; reflexivity.
Qed.

Lemma statusEvents_length (st : string) : (length (statusEvents st) <= 1)%nat.
Proof. unfold statusEvents. case_status st; simpl; lia. Qed.

Lemma statusEvents_no_created (st : string) :
  bounty_created ∉ statusEvents st.
Proof.
  unfold statusEvents.
  case_status st; simpl; rewrite ?elem_of_cons, ?elem_of_nil;
    intuition discriminate.
Qed.

Lemma isRegression_neq (p c : string) : isRegression p c = true -> p <> c.
Proof.
  unfold isRegression. intros H ->.
  destruct (lifecycleRank c); [ | discriminate ].
  apply Nat.ltb_lt in H. lia.
Qed.

Example detect_open_first : detectEvents None (bounty42 "open") = [bounty_created].
Proof. reflexivity. Qed.

Example detect_claimed_after_open :
  detectEvents (Some (snapshotOf (bounty42 "open"))) (bounty42 "claimed")
  = [bounty_claimed].
Proof. reflexivity. Qed.

(** C3, as stated, fails: with the previous snapshot "completed" and the
    current status "claimed" (a regression, the example the claim gives),
    [detectEvents] emits [bounty.claimed]. *)
Lemma detectEvents_regression_emits :
  isRegression (snap_status (snapshotOf (bounty42 "completed")))
               (b_status (bounty42 "claimed")) = true
  /\ detectEvents (Some (snapshotOf (bounty42 "completed")))
                  (bounty42 "claimed") = [bounty_claimed]
  /\ detectEvents (Some (snapshotOf (bounty42 "completed")))
                  (bounty42 "claimed") <> [].
Proof. split; [ reflexivity | split; [ reflexivity | discriminate ] ]. Qed.

(** C3 (amended): when the previous snapshot exists and the status is
    unchanged, [detectEvents] emits zero events; when the current status is a
    lifecycle regression, it emits the event of the current status: exactly
    one event when the record fell back to "claimed" or "submitted", and none
    when it fell back to "open". *)
Theorem detectEvents_unchanged_or_regressed
    (old : BountySnapshot) (b : Bounty) :
  (snap_status old = b_status b -> detectEvents (Some old) b = [])
  /\ (isRegression (snap_status old) (b_status b) = true ->
        detectEvents (Some old) b = statusEvents (b_status b)
        /\ (b_status b = "claimed" -> detectEvents (Some old) b = [bounty_claimed])
        /\ (b_status b = "submitted" ->
              detectEvents (Some old) b = [bounty_submitted])
        /\ (b_status b = "open" -> detectEvents (Some old) b = [])).
Proof.
  rewrite detectEvents_Some. split.
  - intros ->. now rewrite String.eqb_refl.
  - intros Hreg. apply isRegression_neq in Hreg.
    destruct (String.eqb_spec (snap_status old) (b_status b)); [ congruence | ].
    repeat split; intros ->; reflexivity.
Qed.

Lemma detectEvents_unchanged_or_regressed_witness :
  detectEvents (Some (snapshotOf (bounty42 "claimed"))) (bounty42 "claimed") = []
  /\ detectEvents (Some (snapshotOf (bounty42 "completed"))) (bounty42 "submitted")
     = [bounty_submitted].
Proof.
  split.
  - apply (proj1 (detectEvents_unchanged_or_regressed
                    (snapshotOf (bounty42 "claimed")) (bounty42 "claimed"))).
    reflexivity.
  - apply (proj2 (detectEvents_unchanged_or_regressed
                    (snapshotOf (bounty42 "completed")) (bounty42 "submitted"))).
    + reflexivity.
    + reflexivity.
Defined.

(** C4: a record first seen with status "completed" yields exactly
    [created; completed], hence neither [claimed] nor [submitted]; and any
    first sighting yields [created] followed by at most one backfill event,
    the one that a check of the current status alone selects. *)
Theorem detectEvents_first_sighting (b : Bounty) :
  (b_status b = "completed" ->
     detectEvents None b = [bounty_created; bounty_completed]
     /\ (bounty_claimed ∉ detectEvents None b)
     /\ (bounty_submitted ∉ detectEvents None b))
  /\ (exists backfill,
        detectEvents None b = bounty_created :: backfill
        /\ backfill = statusEvents (b_status b)
        /\ (length backfill <= 1)%nat).
Proof.
  rewrite detectEvents_None. split.
  - intros ->. cbn. repeat split;
      rewrite !elem_of_cons, elem_of_nil; intuition discriminate.
  - exists (statusEvents (b_status b)).
    repeat split. apply statusEvents_length.
Qed.

Lemma detectEvents_first_sighting_witness :
  detectEvents None (bounty42 "completed") = [bounty_created; bounty_completed].
Proof.
  apply (proj1 (detectEvents_first_sighting (bounty42 "completed"))).
  reflexivity.
Defined.

(** C9: detection is a function of its two arguments and touches no state.
    For any pair, two calls in sequence inside the store monad give the same
    events and hand the store back as it was; and inside a poll cycle, reading
    the previous snapshot and detecting twice, with no snapshot write in
    between, gives the same events twice and leaves the store (the snapshot
    map included) untouched. *)
Theorem detectEvents_pure_and_repeatable
    (old : option BountySnapshot) (b : Bounty) (s : Sys) :
  (do e1 <- ret (detectEvents old b);
   do e2 <- ret (detectEvents old b);
   ret (e1, e2)) s = ((detectEvents old b, detectEvents old b), s)
  /\ (do e1 <- lookupAndDetect b;
      do e2 <- lookupAndDetect b;
      ret (e1, e2)) s
     = ((detectEvents (knownBounties (state s) !! b_id b) b,
         detectEvents (knownBounties (state s) !! b_id b) b), s).
Proof. split; reflexivity. Qed.

(** For contrast: once the snapshot has been written, a second detection of
    the same record is silent. *)
Lemma detect_after_putSnapshot (b : Bounty) (s : Sys) :
  (do_ putSnapshot (b_id b) (snapshotOf b); lookupAndDetect b) s
  = ([], snd (putSnapshot (b_id b) (snapshotOf b) s)).
Proof.
  unfold lookupAndDetect, putSnapshot, modify, gets, ret, bind; simpl.
  rewrite lookup_insert_eq, detectEvents_Some; simpl.
  now rewrite String.eqb_refl.
Qed.

(** C10: the events of one call are pairwise distinct and come in the order
    created, claimed, submitted, completed; with a previous snapshot there is
    at most one and it is never [created]; without one there are at most
    two. *)
Theorem detectEvents_shape (old : option BountySnapshot) (b : Bounty) :
  NoDup (detectEvents old b)
  /\ StronglySorted lt (map eventRank (detectEvents old b))
  /\ (is_Some old ->
        (length (detectEvents old b) <= 1)%nat
        /\ (bounty_created ∉ detectEvents old b))
  /\ (old = None -> (length (detectEvents old b) <= 2)%nat).
Proof.
  assert (Hnd : forall st, NoDup (statusEvents st)).
  { intros st. unfold statusEvents.
    case_status st; repeat constructor; rewrite ?elem_of_nil; tauto. }
  assert (Hso : forall st, StronglySorted lt (map eventRank (statusEvents st))).
  { intros st. unfold statusEvents. case_status st; repeat constructor. }
  destruct old as [o|].
  - rewrite detectEvents_Some.
    destruct (String.eqb (snap_status o) (b_status b)).
    + split; [ constructor | ]. split; [ constructor | ].
      split; [ | discriminate ].
      intros _. split; [ simpl; lia | apply not_elem_of_nil ].
    + split; [ apply Hnd | ]. split; [ apply Hso | ].
      split; [ | discriminate ].
      intros _. split; [ apply statusEvents_length
                       | apply statusEvents_no_created ].
  - rewrite detectEvents_None.
    split; [ constructor; [ apply statusEvents_no_created | apply Hnd ] | ].
    split.
    + unfold statusEvents. case_status (b_status b); simpl;
        repeat constructor; lia.
    + split; [ intros [x Hx]; discriminate | ].
      intros _. simpl. pose proof (statusEvents_length (b_status b)). lia.
Qed.

Lemma detectEvents_shape_witness :
  (length (detectEvents (Some (snapshotOf (bounty42 "open")))
                        (bounty42 "claimed")) <= 1)%nat
  /\ (length (detectEvents None (bounty42 "claimed")) <= 2)%nat.
Proof.
  split.
  - apply (detectEvents_shape (Some (snapshotOf (bounty42 "open")))
                              (bounty42 "claimed")).
    eexists. reflexivity.
  - apply (detectEvents_shape None (bounty42 "claimed")). reflexivity.
Defined.

(** ** Delivery: proofs *)

Section Delivery.
Context (W : World) (endpoint : WebhookEndpoint) (event : WebhookEvent).
Context (payload signature : string).

Local Abbreviation req := (webhookRequest endpoint event payload signature).
Local Abbreviation loop := (attemptLoop W endpoint event payload signature).

Lemma backoff_state (a : nat) (s : Sys) : state (exec (backoff a) s) = state s.
Proof. unfold backoff. destruct (a <? MAX_RETRIES)%nat; reflexivity. Qed.

Lemma backoff_sent (a : nat) (s : Sys) : sent (exec (backoff a) s) = sent s.
Proof. unfold backoff. destruct (a <? MAX_RETRIES)%nat; reflexivity. Qed.

Lemma loop_O (a : nat) (s : Sys) :
  loop O a s =
    (false, appendLog (finalEntry W endpoint event s) (with_clockRead s)).
Proof. reflexivity. Qed.

Lemma loop_S_throws (r a : nat) (s : Sys) :
  subscriber_fetch W (length (sent s)) req = fetch_throws ->
  loop (S r) a s = loop r (S a) (exec (backoff a) (with_sent req s)).
Proof.
  intros H. unfold loop, exec; simpl. unfold bind at 1, post. fold req.
  rewrite H. unfold bind. destruct (backoff a (with_sent req s)); reflexivity.
Qed.

Lemma loop_S_ok (r a : nat) (s : Sys) (status : Z) :
  subscriber_fetch W (length (sent s)) req = fetch_response status ->
  res_ok status = true ->
  loop (S r) a s =
    (true, appendLog (responseEntry W endpoint event a status s)
             (with_clockRead (with_sent req s))).
Proof.
  intros H Hok. unfold loop, exec; simpl. unfold bind at 1, post. fold req.
  rewrite H. unfold responseEntry. rewrite Hok. reflexivity.
Qed.

Lemma loop_S_rejected (r a : nat) (s : Sys) (status : Z) :
  subscriber_fetch W (length (sent s)) req = fetch_response status ->
  res_ok status = false ->
  loop (S r) a s =
    loop r (S a)
      (exec (backoff a)
         (appendLog (responseEntry W endpoint event a status s)
            (with_clockRead (with_sent req s)))).
Proof.
  intros H Hok. unfold loop, exec; simpl. unfold bind at 1, post. fold req.
  rewrite H. unfold responseEntry. rewrite Hok.
  unfold bind, nowISO, readClock, pushLog, modify, ret; simpl.
  match goal with |- context [backoff a ?s'] => destruct (backoff a s') end.
  reflexivity.
Qed.

Lemma answers_S (n0 r : nat) :
  answers W req n0 (S r)
  = subscriber_fetch W n0 req :: answers W req (S n0) r.
Proof.
  unfold answers. simpl. rewrite Nat.add_0_r. f_equal.
  rewrite <- seq_shift, map_map. apply map_ext. intros k.
  now rewrite Nat.add_succ_r.
Qed.

Lemma replicate_S_snoc (n : nat) (l : list Request) :
  (l ++ [req]) ++ replicate n req = l ++ replicate (S n) req.
Proof. now rewrite <- app_assoc. Qed.

(** The stores between two iterations. *)
Lemma after_throw_sent (a : nat) (s : Sys) :
  sent (exec (backoff a) (with_sent req s)) = sent s ++ [req].
Proof. now rewrite backoff_sent. Qed.

Lemma after_throw_state (a : nat) (s : Sys) :
  state (exec (backoff a) (with_sent req s)) = state s.
Proof. now rewrite backoff_state. Qed.

Lemma after_response_sent (a : nat) (e : DeliveryLogEntry) (s : Sys) :
  sent (exec (backoff a) (appendLog e (with_clockRead (with_sent req s))))
  = sent s ++ [req].
Proof. now rewrite backoff_sent. Qed.

Lemma after_response_log (a : nat) (e : DeliveryLogEntry) (s : Sys) :
  deliveryLog
    (state (exec (backoff a) (appendLog e (with_clockRead (with_sent req s)))))
  = deliveryLog (state s) ++ [e].
Proof. now rewrite backoff_state. Qed.

Lemma after_response_known (a : nat) (e : DeliveryLogEntry) (s : Sys) :
  knownBounties
    (state (exec (backoff a) (appendLog e (with_clockRead (with_sent req s)))))
  = knownBounties (state s).
Proof. now rewrite backoff_state. Qed.

Lemma fails_shift (r : nat) (l : list Request) (s : Sys) :
  length l = S (length (sent s)) ->
  (forall k, (k < S r)%nat ->
     attemptFails (subscriber_fetch W (length (sent s) + k) req) = true) ->
  forall k, (k < r)%nat ->
    attemptFails (subscriber_fetch W (length l + k) req) = true.
Proof.
  intros Hl H k Hk. rewrite Hl.
  replace (S (length (sent s)) + k)%nat with (length (sent s) + S k)%nat by lia.
  apply H. lia.
Qed.

(** Every iteration failing, the loop runs to its end. *)
Lemma loop_all_fail (r : nat) : forall (a : nat) (s : Sys),
  (forall k, (k < r)%nat ->
     attemptFails (subscriber_fetch W (length (sent s) + k) req) = true) ->
  eval (loop r a) s = false
  /\ sent (exec (loop r a) s) = sent s ++ replicate r req
  /\ exists entries final,
       deliveryLog (state (exec (loop r a) s))
       = deliveryLog (state s) ++ entries ++ [final]
       /\ map outcomeOf entries
          = responseOutcomes a (answers W req (length (sent s)) r)
       /\ outcomeOf final = (failed, MAX_RETRIES, None)
       /\ Forall (entryOf endpoint event) (entries ++ [final]).
Proof.
  induction r as [|r IH]; intros a s Hfail.
  - unfold eval, exec. rewrite loop_O. simpl.
    split; [ reflexivity | ]. split; [ now rewrite app_nil_r | ].
    exists [], (finalEntry W endpoint event s).
    repeat split. repeat constructor.
  - pose proof (Hfail O ltac:(lia)) as H0. rewrite Nat.add_0_r in H0.
    rewrite answers_S.
    destruct (subscriber_fetch W (length (sent s)) req) as [|status] eqn:E.
    + unfold eval, exec. rewrite (loop_S_throws r a s E).
      set (s1 := exec (backoff a) (with_sent req s)).
      assert (Hs : sent s1 = sent s ++ [req]) by apply after_throw_sent.
      assert (Hl : length (sent s1) = S (length (sent s)))
        by (rewrite Hs, length_app; simpl; lia).
      destruct (IH (S a) s1 (fails_shift r _ s Hl Hfail))
        as (Hr & Hsent & entries & final & Hlog & Hout & Hfin & Hids).
      split; [ exact Hr | ].
      split; [ unfold exec in Hsent; rewrite Hsent, Hs;
               apply replicate_S_snoc | ].
      exists entries, final. unfold exec in Hlog. rewrite Hlog.
      unfold s1 at 1. rewrite after_throw_state.
      rewrite Hl in Hout. simpl. auto.
    + simpl in H0. apply negb_true_iff in H0.
      unfold eval, exec. rewrite (loop_S_rejected r a s status E H0).
      set (e := responseEntry W endpoint event a status s).
      set (s1 := exec (backoff a) (appendLog e (with_clockRead (with_sent req s)))).
      assert (Hs : sent s1 = sent s ++ [req]) by apply after_response_sent.
      assert (Hl : length (sent s1) = S (length (sent s)))
        by (rewrite Hs, length_app; simpl; lia).
      destruct (IH (S a) s1 (fails_shift r _ s Hl Hfail))
        as (Hr & Hsent & entries & final & Hlog & Hout & Hfin & Hids).
      split; [ exact Hr | ].
      split; [ unfold exec in Hsent; rewrite Hsent, Hs;
               apply replicate_S_snoc | ].
      exists (e :: entries), final. unfold exec in Hlog. rewrite Hlog.
      unfold s1 at 1. rewrite after_response_log, <- app_assoc.
      rewrite Hl in Hout. simpl. rewrite Hout.
      repeat split; auto.
      constructor; [ split; reflexivity | exact Hids ].
Qed.

(** The first [n] iterations failing and the next one answered by a 2xx,
    the loop stops there. *)
Lemma loop_succeeds_at (n : nat) : forall (r a : nat) (s : Sys) (status : Z),
  (n < r)%nat ->
  (forall k, (k < n)%nat ->
     attemptFails (subscriber_fetch W (length (sent s) + k) req) = true) ->
  subscriber_fetch W (length (sent s) + n) req = fetch_response status ->
  res_ok status = true ->
  eval (loop r a) s = true
  /\ sent (exec (loop r a) s) = sent s ++ replicate (S n) req
  /\ exists entries last,
       deliveryLog (state (exec (loop r a) s))
       = deliveryLog (state s) ++ entries ++ [last]
       /\ map outcomeOf entries
          = responseOutcomes a (answers W req (length (sent s)) n)
       /\ outcomeOf last = (success, (a + n)%nat, Some status)
       /\ Forall (entryOf endpoint event) (entries ++ [last]).
Proof.
  induction n as [|n IH]; intros r a s status Hr Hfail Hn Hok.
  - destruct r as [|r]; [ lia | ].
    rewrite Nat.add_0_r in Hn.
    unfold eval, exec. rewrite (loop_S_ok r a s status Hn Hok). simpl.
    split; [ reflexivity | ]. split; [ reflexivity | ].
    exists [], (responseEntry W endpoint event a status s).
    unfold outcomeOf, responseEntry; simpl. rewrite Hok, Nat.add_0_r.
    repeat split. repeat constructor.
  - destruct r as [|r]; [ lia | ].
    pose proof (Hfail O ltac:(lia)) as H0. rewrite Nat.add_0_r in H0.
    rewrite answers_S.
    destruct (subscriber_fetch W (length (sent s)) req) as [|st0] eqn:E.
    + unfold eval, exec. rewrite (loop_S_throws r a s E).
      set (s1 := exec (backoff a) (with_sent req s)).
      assert (Hs : sent s1 = sent s ++ [req]) by apply after_throw_sent.
      assert (Hl : length (sent s1) = S (length (sent s)))
        by (rewrite Hs, length_app; simpl; lia).
      assert (Hn1 : subscriber_fetch W (length (sent s1) + n) req
                    = fetch_response status).
      { rewrite Hl, <- Hn. f_equal. lia. }
      destruct (IH r (S a) s1 status ltac:(lia)
                  (fails_shift n _ s Hl Hfail) Hn1 Hok)
        as (Hres & Hsent & entries & final & Hlog & Hout & Hfin & Hids).
      split; [ exact Hres | ].
      split; [ unfold exec in Hsent; rewrite Hsent, Hs;
               apply replicate_S_snoc | ].
      exists entries, final. unfold exec in Hlog. rewrite Hlog.
      unfold s1 at 1. rewrite after_throw_state.
      rewrite Hl in Hout. simpl.
      replace (a + S n)%nat with (S a + n)%nat by lia. auto.
    + simpl in H0. apply negb_true_iff in H0.
      unfold eval, exec. rewrite (loop_S_rejected r a s st0 E H0).
      set (e := responseEntry W endpoint event a st0 s).
      set (s1 := exec (backoff a) (appendLog e (with_clockRead (with_sent req s)))).
      assert (Hs : sent s1 = sent s ++ [req]) by apply after_response_sent.
      assert (Hl : length (sent s1) = S (length (sent s)))
        by (rewrite Hs, length_app; simpl; lia).
      assert (Hn1 : subscriber_fetch W (length (sent s1) + n) req
                    = fetch_response status).
      { rewrite Hl, <- Hn. f_equal. lia. }
      destruct (IH r (S a) s1 status ltac:(lia)
                  (fails_shift n _ s Hl Hfail) Hn1 Hok)
        as (Hres & Hsent & entries & final & Hlog & Hout & Hfin & Hids).
      split; [ exact Hres | ].
      split; [ unfold exec in Hsent; rewrite Hsent, Hs;
               apply replicate_S_snoc | ].
      exists (e :: entries), final. unfold exec in Hlog. rewrite Hlog.
      unfold s1 at 1. rewrite after_response_log, <- app_assoc.
      rewrite Hl in Hout. simpl. rewrite Hout.
      replace (a + S n)%nat with (S a + n)%nat by lia.
      repeat split; auto.
      constructor; [ split; reflexivity | exact Hids ].
Qed.

(** Whatever the world answers, the loop sends the same request between
    one and [r] times and nothing else, and leaves the snapshots alone. *)
Lemma loop_sends (r : nat) : forall (a : nat) (s : Sys),
  exists n, (n <= r)%nat /\ ((0 < r)%nat -> (1 <= n)%nat)
    /\ sent (exec (loop r a) s) = sent s ++ replicate n req.
Proof.
  induction r as [|r IH]; intros a s.
  - exists O. unfold exec. rewrite loop_O. simpl.
    split; [ lia | ]. split; [ lia | now rewrite app_nil_r ].
  - destruct (subscriber_fetch W (length (sent s)) req) as [|status] eqn:E.
    + unfold exec. rewrite (loop_S_throws r a s E).
      destruct (IH (S a) (exec (backoff a) (with_sent req s)))
        as (n & Hn & _ & Hsent).
      exists (S n). split; [ lia | ]. split; [ lia | ].
      unfold exec in Hsent at 1. rewrite Hsent, after_throw_sent.
      apply replicate_S_snoc.
    + destruct (res_ok status) eqn:Hok.
      * unfold exec. rewrite (loop_S_ok r a s status E Hok). simpl.
        exists 1%nat. split; [ lia | ]. split; [ lia | reflexivity ].
      * unfold exec. rewrite (loop_S_rejected r a s status E Hok).
        match goal with |- context [loop r (S a) ?s1] =>
          destruct (IH (S a) s1) as (n & Hn & _ & Hsent) end.
        exists (S n). split; [ lia | ]. split; [ lia | ].
        unfold exec in Hsent at 1. rewrite Hsent, after_response_sent.
        apply replicate_S_snoc.
Qed.

Lemma loop_knownBounties (r : nat) : forall (a : nat) (s : Sys),
  knownBounties (state (exec (loop r a) s)) = knownBounties (state s)
  /\ webhookEndpoints (exec (loop r a) s) = webhookEndpoints s.
Proof.
  induction r as [|r IH]; intros a s.
  - unfold exec. rewrite loop_O. split; reflexivity.
  - destruct (subscriber_fetch W (length (sent s)) req) as [|status] eqn:E.
    + unfold exec. rewrite (loop_S_throws r a s E).
      destruct (IH (S a) (exec (backoff a) (with_sent req s))) as [Hk He].
      unfold exec in Hk at 1, He at 1. rewrite Hk, He, after_throw_state.
      split; [ reflexivity | ]. unfold backoff, exec.
      destruct (a <? MAX_RETRIES)%nat; reflexivity.
    + destruct (res_ok status) eqn:Hok.
      * unfold exec. rewrite (loop_S_ok r a s status E Hok).
        split; reflexivity.
      * unfold exec. rewrite (loop_S_rejected r a s status E Hok).
        match goal with |- context [loop r (S a) ?s1] =>
          destruct (IH (S a) s1) as [Hk He] end.
        unfold exec in Hk at 1, He at 1.
        rewrite Hk, He, after_response_known.
        split; [ reflexivity | ]. unfold backoff, exec.
        destruct (a <? MAX_RETRIES)%nat; reflexivity.
Qed.
End Delivery.

Lemma responseOutcomes_nil_iff (rs : list FetchResult) : forall a,
  responseOutcomes a rs = [] <-> Forall (fun r => r = fetch_throws) rs.
Proof.
  induction rs as [|r rs IH]; intros a; simpl.
  - split; [ constructor | reflexivity ].
  - destruct r as [|status].
    + rewrite IH. split; [ now constructor | now inversion 1 ].
    + split; [ discriminate | inversion 1; discriminate ].
Qed.

Lemma responseOutcomes_failed (rs : list FetchResult) : forall a,
  Forall (fun r => attemptFails r = true) rs ->
  Forall (fun o => fst (fst o) = failed) (responseOutcomes a rs).
Proof.
  induction rs as [|r rs IH]; intros a H; simpl; [ constructor | ].
  inversion H as [|? ? Hr Hrs]; subst.
  destruct r as [|status]; [ now apply IH | ].
  constructor; [ | now apply IH ].
  simpl in *. now destruct (res_ok status).
Qed.

Lemma Forall_answers (P : FetchResult -> Prop) (W : World) (r : Request)
    (n0 count : nat) :
  Forall P (answers W r n0 count)
  <-> forall k, (k < count)%nat -> P (subscriber_fetch W (n0 + k) r).
Proof.
  unfold answers. rewrite List.Forall_map, List.Forall_forall. split.
  - intros H k Hk. apply H, in_seq. lia.
  - intros H k Hk. apply H. apply in_seq in Hk. lia.
Qed.

Lemma outcomes_status (entries : list DeliveryLogEntry)
    (os : list (DeliveryStatus * nat * option Z)) (st : DeliveryStatus) :
  map outcomeOf entries = os ->
  Forall (fun o => fst (fst o) = st) os ->
  Forall (fun e => le_status e = st) entries.
Proof.
  intros <-. rewrite List.Forall_map. apply List.Forall_impl. now intros e.
Qed.

Example deliver_down_log :
  map outcomeOf (deliveryLog (state (exec (deliverWebhook worldDown endpoint1 event1)
                                          emptySys)))
  = [ (failed, 3%nat, None) ].
Proof. vm_compute. reflexivity. Qed.

Example deliver_down_sleeps :
  slept (exec (deliverWebhook worldDown endpoint1 event1) emptySys)
  = [1000; 2000].
Proof. vm_compute. reflexivity. Qed.

(** C1, as stated, fails: an endpoint that answers 500 to each of the three
    attempts leaves four entries in the log, one per response and the closing
    one, not exactly one. *)
Lemma deliverWebhook_rejected_logs_every_response :
  (forall k, (k < 3)%nat ->
     attemptFails (subscriber_fetch world500 (length (sent emptySys) + k)
                     (deliveryRequest world500 endpoint1 event1)) = true)
  /\ map outcomeOf
       (deliveryLog (state (exec (deliverWebhook world500 endpoint1 event1)
                                 emptySys)))
     = [ (failed, 1%nat, Some 500); (failed, 2%nat, Some 500);
         (failed, 3%nat, Some 500); (failed, 3%nat, None) ]
  /\ length (deliveryLog (state (exec (deliverWebhook world500 endpoint1 event1)
                                      emptySys)))
     <> S (length (deliveryLog (state emptySys))).
Proof.
  split; [ intros k _; reflexivity | ].
  split; [ vm_compute; reflexivity | vm_compute; discriminate ].
Qed.

(** C1 (amended): when every one of the three attempts fails,
    [deliverWebhook] sends exactly three requests, returns failure, and ends
    the log with exactly one closing [failed] entry whose attempt count is 3
    and which carries no status code.  Before that closing entry it has
    appended one [failed] entry, with the attempt number and the status code,
    for each attempt that received a non-2xx response, and none for an attempt
    on which the transport failed; so the closing entry is the only one
    appended exactly when all three attempts failed at transport level. *)
Theorem deliverWebhook_all_attempts_fail
    (W : World) (endpoint : WebhookEndpoint) (event : WebhookEvent) (s : Sys) :
  (forall k, (k < MAX_RETRIES)%nat ->
     attemptFails (subscriber_fetch W (length (sent s) + k)
                     (deliveryRequest W endpoint event)) = true) ->
  eval (deliverWebhook W endpoint event) s = false
  /\ sent (exec (deliverWebhook W endpoint event) s)
     = sent s ++ replicate 3 (deliveryRequest W endpoint event)
  /\ exists entries final,
       deliveryLog (state (exec (deliverWebhook W endpoint event) s))
       = deliveryLog (state s) ++ entries ++ [final]
       /\ map outcomeOf entries
          = responseOutcomes 1
              (answers W (deliveryRequest W endpoint event) (length (sent s)) 3)
       /\ Forall (fun e => le_status e = failed) entries
       /\ outcomeOf final = (failed, 3%nat, None)
       /\ Forall (entryOf endpoint event) (entries ++ [final])
       /\ (entries = [] <->
             forall k, (k < 3)%nat ->
               subscriber_fetch W (length (sent s) + k)
                 (deliveryRequest W endpoint event) = fetch_throws).
Proof.
  intros Hfail. unfold deliverWebhook.
  destruct (loop_all_fail W endpoint event (JSON_stringify W event)
              (signPayload W (JSON_stringify W event) (ep_secret endpoint))
              MAX_RETRIES 1%nat s Hfail)
    as (Hres & Hsent & entries & final & Hlog & Hout & Hfin & Hids).
  split; [ exact Hres | ]. split; [ exact Hsent | ].
  exists entries, final.
  split; [ exact Hlog | ]. split; [ exact Hout | ].
  split.
  { apply (outcomes_status _ _ _ Hout), responseOutcomes_failed.
    now apply Forall_answers. }
  split; [ exact Hfin | ]. split; [ exact Hids | ].
  rewrite <- (Forall_answers (fun r => r = fetch_throws)).
  rewrite <- responseOutcomes_nil_iff with (a := 1%nat).
  fold (deliveryRequest W endpoint event) in Hout. unfold MAX_RETRIES in Hout.
  rewrite <- Hout. split; [ intros ->; reflexivity | ].
  destruct entries; [ reflexivity | discriminate ].
Qed.

Lemma deliverWebhook_all_attempts_fail_witness :
  eval (deliverWebhook worldDown endpoint1 event1) emptySys = false.
Proof.
  apply (deliverWebhook_all_attempts_fail worldDown endpoint1 event1 emptySys).
  intros k _. reflexivity.
Defined.

(** C2, as stated, fails: when the first attempt is answered 500 and the
    second 200, the log receives an entry for attempt 1 as well, so two
    entries are appended, not one. *)
Lemma deliverWebhook_logs_rejected_attempt_before_success :
  attemptFails (subscriber_fetch world500then200 (length (sent emptySys) + 0)
                  (deliveryRequest world500then200 endpoint1 event1)) = true
  /\ subscriber_fetch world500then200 (length (sent emptySys) + 1)
       (deliveryRequest world500then200 endpoint1 event1) = fetch_response 200
  /\ map outcomeOf
       (deliveryLog (state (exec (deliverWebhook world500then200 endpoint1 event1)
                                 emptySys)))
     = [ (failed, 1%nat, Some 500); (success, 2%nat, Some 200) ]
  /\ length (deliveryLog
               (state (exec (deliverWebhook world500then200 endpoint1 event1)
                            emptySys)))
     <> S (length (deliveryLog (state emptySys))).
Proof.
  split; [ reflexivity | ]. split; [ reflexivity | ].
  split; [ vm_compute; reflexivity | vm_compute; discriminate ].
Qed.

(** C2 (amended): when the delivery succeeds on attempt N (N at most 3, the
    N-1 attempts before it having failed), [deliverWebhook] sends exactly N
    requests, returns success, and ends the log with exactly one [success]
    entry whose attempt count is N.  For the attempts 1..N-1 it has appended
    no entry where the transport failed and one [failed] entry, with the
    attempt number and the status code, where a non-2xx response came back. *)
Theorem deliverWebhook_succeeds_on_attempt
    (W : World) (endpoint : WebhookEndpoint) (event : WebhookEvent) (s : Sys)
    (N : nat) (status : Z) :
  (1 <= N <= MAX_RETRIES)%nat ->
  (forall k, (k < N - 1)%nat ->
     attemptFails (subscriber_fetch W (length (sent s) + k)
                     (deliveryRequest W endpoint event)) = true) ->
  subscriber_fetch W (length (sent s) + (N - 1))
    (deliveryRequest W endpoint event) = fetch_response status ->
  res_ok status = true ->
  eval (deliverWebhook W endpoint event) s = true
  /\ sent (exec (deliverWebhook W endpoint event) s)
     = sent s ++ replicate N (deliveryRequest W endpoint event)
  /\ exists entries last,
       deliveryLog (state (exec (deliverWebhook W endpoint event) s))
       = deliveryLog (state s) ++ entries ++ [last]
       /\ map outcomeOf entries
          = responseOutcomes 1
              (answers W (deliveryRequest W endpoint event) (length (sent s))
                 (N - 1))
       /\ Forall (fun e => le_status e = failed) entries
       /\ outcomeOf last = (success, N, Some status)
       /\ Forall (entryOf endpoint event) (entries ++ [last])
       /\ (entries = [] <->
             forall k, (k < N - 1)%nat ->
               subscriber_fetch W (length (sent s) + k)
                 (deliveryRequest W endpoint event) = fetch_throws).
Proof.
  intros HN Hfail Hlast Hok. unfold deliverWebhook.
  destruct (loop_succeeds_at W endpoint event (JSON_stringify W event)
              (signPayload W (JSON_stringify W event) (ep_secret endpoint))
              (N - 1) MAX_RETRIES 1%nat s status ltac:(lia) Hfail Hlast Hok)
    as (Hres & Hsent & entries & last & Hlog & Hout & Hfin & Hids).
  replace (S (N - 1)) with N in Hsent by lia.
  replace (1 + (N - 1))%nat with N in Hfin by lia.
  split; [ exact Hres | ]. split; [ exact Hsent | ].
  exists entries, last.
  split; [ exact Hlog | ]. split; [ exact Hout | ].
  split.
  { apply (outcomes_status _ _ _ Hout), responseOutcomes_failed.
    now apply Forall_answers. }
  split; [ exact Hfin | ]. split; [ exact Hids | ].
  rewrite <- (Forall_answers (fun r => r = fetch_throws)).
  rewrite <- responseOutcomes_nil_iff with (a := 1%nat).
  fold (deliveryRequest W endpoint event) in Hout.
  rewrite <- Hout. split; [ intros ->; reflexivity | ].
  destruct entries; [ reflexivity | discriminate ].
Qed.

Lemma deliverWebhook_succeeds_on_attempt_witness :
  eval (deliverWebhook worldDownThen200 endpoint1 event1) emptySys = true.
Proof.
  apply (deliverWebhook_succeeds_on_attempt worldDownThen200 endpoint1 event1
           emptySys 2 200).
  - unfold MAX_RETRIES. lia.
  - intros k Hk. assert (k = 0%nat) as -> by (simpl in Hk; lia). reflexivity.
  - reflexivity.
  - reflexivity.
Defined.

(** C5: all the requests of one delivery are one and the same request, sent
    between one and three times; its body is the serialized event, and its
    X-Signature header is "sha256=" followed by the hex HMAC-SHA256 of that
    very body under the resolved key, which is the subscriber's secret when
    it is present and not empty and the process-wide default key otherwise. *)
Theorem deliverWebhook_signs_the_body_it_sends
    (W : World) (endpoint : WebhookEndpoint) (event : WebhookEvent) (s : Sys) :
  exists (n : nat) (request : Request) (key : string),
    (1 <= n <= 3)%nat
    /\ sent (exec (deliverWebhook W endpoint event) s)
       = sent s ++ replicate n request
    /\ req_body request = JSON_stringify W event
    /\ getHeader "X-Signature" (req_headers request)
       = Some ("sha256=" +:+ hmac_sha256_hex W key (req_body request))
    /\ key = match ep_secret endpoint with
             | Some k => if decide (k = "") then HMAC_SECRET W else k
             | None => HMAC_SECRET W
             end.
Proof.
  destruct (loop_sends W endpoint event (JSON_stringify W event)
              (signPayload W (JSON_stringify W event) (ep_secret endpoint))
              MAX_RETRIES 1%nat s) as (n & Hle & Hge & Hsent).
  exists n, (deliveryRequest W endpoint event),
    (resolveKey W (ep_secret endpoint)).
  split; [ unfold MAX_RETRIES in *; lia | ].
  split; [ exact Hsent | ]. split; [ reflexivity | ]. split; [ reflexivity | ].
  unfold resolveKey. destruct (ep_secret endpoint) as [k|]; [ | reflexivity ].
  destruct (String.eqb_spec k ""); case_decide; congruence.
Qed.

Example signature_header_of_delivery :
  getHeader "X-Signature"
    (req_headers (deliveryRequest worldDown endpoint1 event1))
  = Some "sha256=mac(s3cret,{id:evt_42_bounty.created_1705312800000,type:bounty.created})".
Proof. vm_compute. reflexivity. Qed.

(** ** Persistence: proofs *)

Lemma slice_last_length {A} (n : nat) (l : list A) :
  length (slice_last n l) = Nat.min n (length l).
Proof. unfold slice_last. rewrite length_drop. lia. Qed.

Lemma slice_last_suffix {A} (n : nat) (l : list A) :
  take (length l - n) l ++ slice_last n l = l.
Proof. apply take_drop. Qed.

Lemma saveState_state (W : World) (s : Sys) :
  state (exec (saveState W) s) = trimLog (state s).
Proof.
  unfold saveState, exec, bind, modify; simpl.
  destruct (writeFileSync_ok W (writes s)); reflexivity.
Qed.

Lemma saveState_stateFile (W : World) (s : Sys) :
  stateFile (exec (saveState W) s)
  = if eval (saveState W) s then Some (trimLog (state s)) else stateFile s.
Proof.
  unfold saveState, exec, eval, bind, modify; simpl.
  destruct (writeFileSync_ok W (writes s)); reflexivity.
Qed.

(** C7: after [saveState] the delivery log holds at most 1000 entries; a log
    that was longer keeps exactly its last 1000 entries, in order, the oldest
    ones being dropped; a log within the bound is kept whole.  What a
    successful write puts in the state file is that same state. *)
Theorem saveState_caps_deliveryLog (W : World) (s : Sys) :
  (length (deliveryLog (state (exec (saveState W) s))) <= 1000)%nat
  /\ ((1000 < length (deliveryLog (state s)))%nat ->
        length (deliveryLog (state (exec (saveState W) s))) = 1000%nat
        /\ exists oldest,
             deliveryLog (state s)
             = oldest ++ deliveryLog (state (exec (saveState W) s))
             /\ length oldest = (length (deliveryLog (state s)) - 1000)%nat)
  /\ ((length (deliveryLog (state s)) <= 1000)%nat ->
        deliveryLog (state (exec (saveState W) s)) = deliveryLog (state s))
  /\ (eval (saveState W) s = true ->
        stateFile (exec (saveState W) s) = Some (state (exec (saveState W) s)))
  /\ knownBounties (state (exec (saveState W) s)) = knownBounties (state s).
Proof.
  rewrite saveState_stateFile, saveState_state. unfold trimLog.
  destruct (Nat.ltb_spec 1000 (length (deliveryLog (state s)))) as [Hlt|Hle];
    simpl.
  - rewrite slice_last_length.
    split; [ lia | ]. split.
    { intros _. split; [ lia | ].
      exists (take (length (deliveryLog (state s)) - 1000) (deliveryLog (state s))).
      split; [ symmetry; apply slice_last_suffix | ].
      rewrite length_take. lia. }
    split; [ lia | ]. split; [ now intros -> | reflexivity ].
  - split; [ lia | ]. split; [ lia | ].
    split; [ reflexivity | ]. split; [ now intros -> | reflexivity ].
Qed.

Lemma saveState_caps_deliveryLog_witness :
  length (deliveryLog (state (exec (saveState worldDown) (sysWithLog 1003))))
  = 1000%nat.
Proof.
  destruct (saveState_caps_deliveryLog worldDown (sysWithLog 1003))
    as (_ & Htrim & _).
  apply Htrim. vm_compute. lia.
Defined.

Example saveState_keeps_most_recent :
  map le_attempts
    (take 2 (deliveryLog (state (exec (saveState worldDown) (sysWithLog 1003)))))
  = [3%nat; 4%nat]
  /\ last (deliveryLog (state (exec (saveState worldDown) (sysWithLog 1003))))
     = Some (numberedEntry 1002).
Proof. vm_compute. split; reflexivity. Qed.

(** ** The poll cycle: proofs *)

Lemma exec_bind {A B} (m : M A) (k : A -> M B) (s : Sys) :
  exec (bind m k) s = exec (k (eval m s)) (exec m s).
Proof. unfold exec, eval, bind. now destruct (m s). Qed.

Lemma preserves_bind {A B X} (proj : Sys -> X) (m : M A) (k : A -> M B) :
  preserves proj m -> (forall a, preserves proj (k a)) ->
  preserves proj (bind m k).
Proof. intros Hm Hk s. now rewrite exec_bind, Hk, Hm. Qed.

Lemma preserves_ret {A X} (proj : Sys -> X) (a : A) : preserves proj (ret a).
Proof. intros s. reflexivity. Qed.

Lemma preserves_forEach {A X} (proj : Sys -> X) (body : A -> M unit)
    (xs : list A) :
  (forall x, preserves proj (body x)) -> preserves proj (forEach xs body).
Proof.
  intros Hbody. induction xs as [|x xs IH]; simpl.
  - apply preserves_ret.
  - apply preserves_bind; [ apply Hbody | intros _; exact IH ].
Qed.

(** Deliveries and dispatches never touch the snapshot map. *)

Lemma deliverWebhook_snapshots (W : World) (ep : WebhookEndpoint)
    (ev : WebhookEvent) : preserves snapshots (deliverWebhook W ep ev).
Proof. intros s. unfold deliverWebhook, snapshots. apply loop_knownBounties. Qed.

Lemma dispatchEvent_snapshots (W : World) (b : Bounty) (t : EventType) :
  preserves snapshots (dispatchEvent W b t).
Proof.
  unfold dispatchEvent.
  apply preserves_bind; [ intros s; reflexivity | intros ms ].
  apply preserves_bind; [ intros s; reflexivity | intros timestamp ].
  apply preserves_bind; [ intros s; reflexivity | intros endpoints ].
  apply preserves_forEach. intros ep.
  apply preserves_bind; [ apply deliverWebhook_snapshots | ].
  intros _. apply preserves_ret.
Qed.

Lemma processBounty_snapshots (W : World) (b : Bounty) (s : Sys) :
  snapshots (exec (processBounty W b) s)
  = <[b_id b := snapshotOf b]> (snapshots s).
Proof.
  unfold processBounty. rewrite !exec_bind.
  rewrite (preserves_forEach snapshots _ _ (dispatchEvent_snapshots W b)).
  reflexivity.
Qed.

Lemma forEach_cons {A} (x : A) (xs : list A) (body : A -> M unit) (s : Sys) :
  exec (forEach (x :: xs) body) s = exec (forEach xs body) (exec (body x) s).
Proof. simpl. now rewrite exec_bind. Qed.

(** After the outer loop the snapshot of an id is the one of the last
    record that carries it, or the old one when no record does. *)
Lemma processAll_absent (W : World) (bounties : list Bounty) :
  forall (s : Sys) (id : Z),
    id ∉ map b_id bounties ->
    snapshots (exec (forEach bounties (processBounty W)) s) !! id
    = snapshots s !! id.
Proof.
  induction bounties as [|b rest IH]; intros s id Hid; [ reflexivity | ].
  rewrite forEach_cons. simpl in Hid. apply not_elem_of_cons in Hid as [Hne Hid].
  rewrite (IH _ _ Hid), processBounty_snapshots.
  now apply lookup_insert_ne.
Qed.

Lemma processAll_last (W : World) (before after : list Bounty) (b : Bounty)
    (s : Sys) :
  b_id b ∉ map b_id after ->
  snapshots (exec (forEach (before ++ b :: after) (processBounty W)) s)
    !! b_id b
  = Some (snapshotOf b).
Proof.
  revert s. induction before as [|b0 before IH]; intros s Hid; simpl app.
  - rewrite forEach_cons, (processAll_absent W after _ _ Hid).
    rewrite processBounty_snapshots. apply lookup_insert_eq.
  - rewrite forEach_cons. now apply IH.
Qed.

Lemma processAll_keeps (W : World) (bounties : list Bounty) :
  forall (s : Sys) (id : Z),
    is_Some (snapshots s !! id) ->
    is_Some (snapshots (exec (forEach bounties (processBounty W)) s) !! id).
Proof.
  induction bounties as [|b rest IH]; intros s id Hid; [ exact Hid | ].
  rewrite forEach_cons. apply IH. rewrite processBounty_snapshots.
  rewrite lookup_insert. case_decide; [ eexists; reflexivity | exact Hid ].
Qed.

Lemma pollAndDispatch_ok (W : World) (s : Sys) (status : Z)
    (bounties : list Bounty) :
  upstream_fetch W (polls s) (bountiesUrl W)
  = upstream_response status (body_json bounties) ->
  res_ok status = true ->
  exec (pollAndDispatch W) s
  = exec (saveState W) (exec (forEach bounties (processBounty W)) (with_poll s)).
Proof.
  intros Hup Hok. unfold pollAndDispatch. rewrite exec_bind.
  unfold getBounties at 1, eval; simpl. fold (bountiesUrl W). rewrite Hup, Hok.
  simpl. rewrite !exec_bind. reflexivity.
Qed.

(** C8: after a cycle whose fetch succeeded, every record of the fetched
    collection has its snapshot overwritten with what was just polled (the
    last record wins when an id occurs twice), whether or not the detector
    found an event for it: the stored snapshot carries the record's id and
    status, and its claimant and its two dates, an empty string being stored
    as null.  The snapshot of an id that is absent from the collection is
    the one it was, and no id that had a snapshot loses it. *)
Theorem pollAndDispatch_overwrites_snapshots (W : World) (s : Sys)
    (status : Z) (bounties : list Bounty) :
  upstream_fetch W (polls s) (bountiesUrl W)
  = upstream_response status (body_json bounties) ->
  res_ok status = true ->
  (forall before b after,
     bounties = before ++ b :: after ->
     b_id b ∉ map b_id after ->
     exists stored,
       snapshots (exec (pollAndDispatch W) s) !! b_id b = Some stored
       /\ snap_id stored = b_id b
       /\ snap_status stored = b_status b
       /\ snap_claimedBy stored
          = match b_claimedBy b with Some "" => None | other => other end
       /\ snap_submittedAt stored
          = match b_submittedAt b with Some "" => None | other => other end
       /\ snap_completedAt stored
          = match b_completedAt b with Some "" => None | other => other end)
  /\ (forall id,
        id ∉ map b_id bounties ->
        snapshots (exec (pollAndDispatch W) s) !! id = snapshots s !! id)
  /\ (forall id,
        is_Some (snapshots s !! id) ->
        is_Some (snapshots (exec (pollAndDispatch W) s) !! id)).
Proof.
  intros Hup Hok. rewrite (pollAndDispatch_ok W s status bounties Hup Hok).
  assert (Hsave : forall s0, snapshots (exec (saveState W) s0) = snapshots s0).
  { intros s0. unfold snapshots. rewrite saveState_state.
    unfold trimLog. now destruct (_ <? _)%nat. }
  rewrite Hsave. split; [ | split ].
  - intros before b after -> Hid. exists (snapshotOf b).
    split; [ now apply processAll_last | ].
    unfold snapshotOf, orNull; simpl.
    split; [ reflexivity | ]. split; [ reflexivity | ].
    split; [ now destruct (b_claimedBy b) as [[|c v]|] | ].
    split; [ now destruct (b_submittedAt b) as [[|c v]|] | ].
    now destruct (b_completedAt b) as [[|c v]|].
  - intros id Hid. now rewrite processAll_absent.
  - intros id Hid. now apply processAll_keeps.
Qed.

Lemma pollAndDispatch_overwrites_snapshots_witness :
  (exists stored,
     snapshots (exec (pollAndDispatch (worldServing [bounty42seen])) trackingSys)
       !! 42 = Some stored
     /\ snap_status stored = "open"
     /\ snap_claimedBy stored = Some "bob")
  /\ snapshots (exec (pollAndDispatch (worldServing [bounty42seen])) trackingSys)
       !! 7
     = snapshots trackingSys !! 7.
Proof.
  destruct (pollAndDispatch_overwrites_snapshots (worldServing [bounty42seen])
              trackingSys 200 [bounty42seen] eq_refl eq_refl)
    as (Hnew & Hold & _).
  split.
  - destruct (Hnew [] bounty42seen [] eq_refl (not_elem_of_nil _))
      as (stored & Hstored & _ & Hstatus & Hclaimed & _).
    exists stored. split; [ exact Hstored | ].
    split; [ exact Hstatus | exact Hclaimed ].
  - apply Hold. simpl. rewrite list_elem_of_singleton. lia.
Defined.

(** The same cycle, run: record 42 is still open, so no event fires and
    nothing is sent, yet its snapshot now carries the new claimant. *)
Example poll_unchanged_status_still_overwrites :
  detectEvents (snapshots trackingSys !! 42) bounty42seen = []
  /\ sent (exec (pollAndDispatch (worldServing [bounty42seen])) trackingSys) = []
  /\ snap_claimedBy
       <$> snapshots (exec (pollAndDispatch (worldServing [bounty42seen]))
                           trackingSys) !! 42
     = Some (Some "bob")
  /\ snap_claimedBy <$> snapshots trackingSys !! 42 = Some None.
Proof. vm_compute. repeat split. Qed.

(** A first sighting, run end to end: one [bounty.created] event, delivered
    once to the subscriber, logged as a success on attempt 1, and flushed. *)
Example poll_first_sighting :
  let s' := exec (pollAndDispatch (worldServing [bounty42 "open"])) emptySys in
  map outcomeOf (deliveryLog (state s')) = [ (success, 1%nat, Some 200) ]
  /\ map (getHeader "X-Event-Id") (map req_headers (sent s'))
     = [ Some "evt_42_bounty.created_1705312800000" ]
  /\ stateFile s' = Some (state s').
Proof. vm_compute. repeat split. Qed.

(** ** Delivery: what holds in every world *)

Section DeliveryAnyWorld.
Context (W : World) (endpoint : WebhookEndpoint) (event : WebhookEvent).
Context (payload signature : string).

Local Abbreviation req := (webhookRequest endpoint event payload signature).
Local Abbreviation loop := (attemptLoop W endpoint event payload signature).

Lemma backoff_slept (a : nat) (s : Sys) :
  slept (exec (backoff a) s) = slept s ++ backoffDelay a.
Proof.
  unfold backoff, backoffDelay.
  destruct (a <? MAX_RETRIES)%nat; simpl; [ reflexivity | ].
  now rewrite app_nil_r.
Qed.

Lemma backoffDelays_S (a n : nat) :
  backoffDelays a (S n) = backoffDelay a ++ backoffDelays (S a) n.
Proof. reflexivity. Qed.

(** The loop sleeps after each failed iteration and after no other. *)
Lemma loop_slept (r : nat) : forall (a : nat) (s : Sys),
  exists n, (n <= r)%nat
    /\ (eval (loop r a) s = false -> n = r)
    /\ (eval (loop r a) s = true -> (1 <= n)%nat)
    /\ sent (exec (loop r a) s) = sent s ++ replicate n req
    /\ slept (exec (loop r a) s)
       = slept s ++ backoffDelays a (if eval (loop r a) s then n - 1 else n).
Proof.
  induction r as [|r IH]; intros a s.
  - exists O. unfold exec, eval. rewrite loop_O. simpl.
    rewrite !app_nil_r. repeat split; try lia; discriminate.
  - assert (Hstep : forall s1,
              sent s1 = sent s ++ [req] ->
              slept s1 = slept s ++ backoffDelay a ->
              exists n, (n <= S r)%nat
                /\ (eval (loop r (S a)) s1 = false -> n = S r)
                /\ (eval (loop r (S a)) s1 = true -> (1 <= n)%nat)
                /\ sent (exec (loop r (S a)) s1) = sent s ++ replicate n req
                /\ slept (exec (loop r (S a)) s1)
                   = slept s ++ backoffDelays a
                       (if eval (loop r (S a)) s1 then n - 1 else n)).
    { intros s1 Hs1 Hz1.
      destruct (IH (S a) s1) as (n & Hn & Hfalse & Htrue & Hsent & Hslept).
      exists (S n). split; [ lia | ].
      split; [ intros Hf; f_equal; now apply Hfalse | ].
      split; [ lia | ].
      split; [ rewrite Hsent, Hs1; apply replicate_S_snoc | ].
      rewrite Hslept, Hz1, <- app_assoc. f_equal.
      destruct (eval (loop r (S a)) s1) eqn:Hr.
      - specialize (Htrue eq_refl).
        replace (S n - 1)%nat with (S (n - 1)) by lia.
        now rewrite backoffDelays_S.
      - now rewrite backoffDelays_S. }
    destruct (subscriber_fetch W (length (sent s)) req) as [|status] eqn:E.
    + unfold exec, eval. rewrite (loop_S_throws W _ _ _ _ r a s E).
      apply Hstep; [ apply after_throw_sent | ].
      now rewrite backoff_slept.
    + destruct (res_ok status) eqn:Hok.
      * unfold exec, eval. rewrite (loop_S_ok W _ _ _ _ r a s status E Hok).
        exists 1%nat. simpl. rewrite app_nil_r.
        repeat split; try lia; discriminate.
      * unfold exec, eval.
        rewrite (loop_S_rejected W _ _ _ _ r a s status E Hok).
        apply Hstep; [ apply after_response_sent | ].
        now rewrite backoff_slept.
Qed.

(** A component of the store that none of the four effects of the loop
    touches is the same after the loop. *)
Lemma loop_frame {X} (proj : Sys -> X) :
  (forall r s, proj (with_sent r s) = proj s) ->
  (forall s, proj (with_clockRead s) = proj s) ->
  (forall e s, proj (appendLog e s) = proj s) ->
  (forall d s, proj (with_slept d s) = proj s) ->
  forall r a, preserves proj (loop r a).
Proof.
  intros Hsent Hclock Hlog Hslept.
  assert (Hback : forall a s, proj (exec (backoff a) s) = proj s).
  { intros a s. unfold backoff, exec.
    destruct (a <? MAX_RETRIES)%nat; simpl; [ apply Hslept | reflexivity ]. }
  induction r as [|r IH]; intros a s.
  - unfold exec. rewrite loop_O. simpl. now rewrite Hlog, Hclock.
  - destruct (subscriber_fetch W (length (sent s)) req) as [|status] eqn:E.
    + unfold exec. rewrite (loop_S_throws W _ _ _ _ r a s E).
      fold (exec (loop r (S a)) (exec (backoff a) (with_sent req s))).
      now rewrite IH, Hback, Hsent.
    + destruct (res_ok status) eqn:Hok.
      * unfold exec. rewrite (loop_S_ok W _ _ _ _ r a s status E Hok). simpl.
        now rewrite Hlog, Hclock, Hsent.
      * unfold exec. rewrite (loop_S_rejected W _ _ _ _ r a s status E Hok).
        match goal with |- proj (snd (loop r (S a) ?s1)) = _ =>
          fold (exec (loop r (S a)) s1) end.
        now rewrite IH, Hback, Hlog, Hclock, Hsent.
Qed.

(** The log only grows: the loop appends at most one entry per iteration,
    each a [failed] one, and then a last entry that tells the result. *)
Lemma loop_log (r : nat) : forall (a : nat) (s : Sys),
  exists earlier final,
    deliveryLog (state (exec (loop r a) s))
    = deliveryLog (state s) ++ earlier ++ [final]
    /\ (length earlier <= r)%nat
    /\ Forall (fun e => le_status e = failed) earlier
    /\ le_status final = (if eval (loop r a) s then success else failed)
    /\ Forall (entryOf endpoint event) (earlier ++ [final]).
Proof.
  induction r as [|r IH]; intros a s.
  - exists [], (finalEntry W endpoint event s).
    unfold exec, eval. rewrite loop_O. simpl.
    repeat split; try lia; repeat constructor.
  - destruct (subscriber_fetch W (length (sent s)) req) as [|status] eqn:E.
    + unfold exec, eval. rewrite (loop_S_throws W _ _ _ _ r a s E).
      destruct (IH (S a) (exec (backoff a) (with_sent req s)))
        as (earlier & final & Hlog & Hlen & Hfailed & Hfin & Hids).
      exists earlier, final. unfold exec, eval in *.
      rewrite Hlog.
      fold (exec (backoff a) (with_sent req s)). rewrite after_throw_state.
      repeat split; auto; try lia; apply Hids.
    + destruct (res_ok status) eqn:Hok.
      * unfold exec, eval. rewrite (loop_S_ok W _ _ _ _ r a s status E Hok).
        exists [], (responseEntry W endpoint event a status s). simpl.
        rewrite Hok. repeat split; try lia; repeat constructor.
      * unfold exec, eval.
        rewrite (loop_S_rejected W _ _ _ _ r a s status E Hok).
        match goal with |- context [loop r (S a) ?s1] =>
          destruct (IH (S a) s1)
            as (earlier & final & Hlog & Hlen & Hfailed & Hfin & Hids) end.
        exists (responseEntry W endpoint event a status s :: earlier), final.
        unfold exec, eval in *. rewrite Hlog.
        match goal with |- context [snd (backoff a ?s0)] =>
          fold (exec (backoff a) s0) end.
        rewrite after_response_log, <- app_assoc. simpl.
        split; [ reflexivity | ]. split; [ lia | ].
        split; [ constructor; [ simpl; now rewrite Hok | exact Hfailed ] | ].
        split; [ exact Hfin | ].
        constructor; [ split; reflexivity | exact Hids ].
Qed.
End DeliveryAnyWorld.

(** The three attempts of one delivery are separated by sleeps of 1000 and
    2000 ms: after [n] attempts the delivery has slept the first [n - 1] of
    them, so it never sleeps after its last attempt, be it a success or the
    third failure. *)
Theorem deliverWebhook_backoff_schedule
    (W : World) (endpoint : WebhookEndpoint) (event : WebhookEvent) (s : Sys) :
  exists n, (1 <= n <= 3)%nat
    /\ sent (exec (deliverWebhook W endpoint event) s)
       = sent s ++ replicate n (deliveryRequest W endpoint event)
    /\ slept (exec (deliverWebhook W endpoint event) s)
       = slept s ++ take (n - 1) [1000; 2000]
    /\ (eval (deliverWebhook W endpoint event) s = false -> n = 3%nat).
Proof.
  unfold deliverWebhook.
  destruct (loop_slept W endpoint event (JSON_stringify W event)
              (signPayload W (JSON_stringify W event) (ep_secret endpoint))
              MAX_RETRIES 1%nat s)
    as (n & Hn & Hfalse & Htrue & Hsent & Hslept).
  unfold MAX_RETRIES in Hn, Hfalse.
  exists n. rewrite Hslept.
  destruct (eval _ s) eqn:Hr.
  - specialize (Htrue eq_refl).
    split; [ lia | ]. split; [ exact Hsent | ]. split; [ | discriminate ].
    destruct n as [|[|[|[|n]]]]; try lia; reflexivity.
  - rewrite (Hfalse eq_refl) in *.
    split; [ lia | ]. split; [ exact Hsent | ]. split; reflexivity.
Qed.

(** A delivery never rewrites the log, it appends to it: at most three
    [failed] entries, one per rejected response, and then one last entry; all
    of them name this event and this endpoint, and the delivery returns true
    exactly when that last entry is a [success]. *)
Theorem deliverWebhook_appends_and_reports
    (W : World) (endpoint : WebhookEndpoint) (event : WebhookEvent) (s : Sys) :
  exists earlier final,
    deliveryLog (state (exec (deliverWebhook W endpoint event) s))
    = deliveryLog (state s) ++ earlier ++ [final]
    /\ (length earlier <= 3)%nat
    /\ Forall (fun e => le_status e = failed) earlier
    /\ Forall (entryOf endpoint event) (earlier ++ [final])
    /\ (eval (deliverWebhook W endpoint event) s = true
        <-> le_status final = success).
Proof.
  unfold deliverWebhook.
  destruct (loop_log W endpoint event (JSON_stringify W event)
              (signPayload W (JSON_stringify W event) (ep_secret endpoint))
              MAX_RETRIES 1%nat s)
    as (earlier & final & Hlog & Hlen & Hfailed & Hfin & Hids).
  exists earlier, final.
  split; [ exact Hlog | ]. split; [ exact Hlen | ].
  split; [ exact Hfailed | ]. split; [ exact Hids | ].
  rewrite Hfin. destruct (eval _ s); split; congruence.
Qed.

(** A delivery touches nothing but the log, the traffic and the clock: the
    snapshots, the subscriber list and the state file are as they were, and
    it neither polls the upstream nor writes to disk. *)
Theorem deliverWebhook_frame
    (W : World) (endpoint : WebhookEndpoint) (event : WebhookEvent) (s : Sys) :
  snapshots (exec (deliverWebhook W endpoint event) s) = snapshots s
  /\ webhookEndpoints (exec (deliverWebhook W endpoint event) s)
     = webhookEndpoints s
  /\ stateFile (exec (deliverWebhook W endpoint event) s) = stateFile s
  /\ writes (exec (deliverWebhook W endpoint event) s) = writes s
  /\ polls (exec (deliverWebhook W endpoint event) s) = polls s.
Proof.
  unfold deliverWebhook.
  repeat split; apply loop_frame; reflexivity.
Qed.

(** ** Dispatch: proofs *)








(** ** The poll cycle: frames and repetition *)

Lemma dispatchEvent_frame {X} (proj : Sys -> X) (W : World) (b : Bounty)
    (t : EventType) :
  (forall r s, proj (with_sent r s) = proj s) ->
  (forall s, proj (with_clockRead s) = proj s) ->
  (forall f s, proj (with_state f s) = proj s) ->
  (forall d s, proj (with_slept d s) = proj s) ->
  preserves proj (dispatchEvent W b t).
Proof.
  intros Hsent Hclock Hstate Hslept. unfold dispatchEvent.
  apply preserves_bind; [ intros s; apply Hclock | intros ms ].
  apply preserves_bind; [ intros s; apply Hclock | intros timestamp ].
  apply preserves_bind; [ intros s; reflexivity | intros endpoints ].
  apply preserves_forEach. intros ep.
  apply preserves_bind; [ | intros _; apply preserves_ret ].
  unfold deliverWebhook. apply loop_frame; auto.
  intros e s. apply Hstate.
Qed.

Lemma processAll_frame {X} (proj : Sys -> X) (W : World)
    (bounties : list Bounty) :
  (forall r s, proj (with_sent r s) = proj s) ->
  (forall s, proj (with_clockRead s) = proj s) ->
  (forall f s, proj (with_state f s) = proj s) ->
  (forall d s, proj (with_slept d s) = proj s) ->
  preserves proj (forEach bounties (processBounty W)).
Proof.
  intros Hsent Hclock Hstate Hslept.
  apply preserves_forEach. intros b. unfold processBounty.
  apply preserves_bind; [ intros s; reflexivity | intros events ].
  apply preserves_bind; [ intros s; apply Hstate | intros _ ].
  apply preserves_forEach. intros t. now apply dispatchEvent_frame.
Qed.

Lemma with_state_id (f : StateData -> StateData) (s : Sys) :
  f (state s) = state s -> with_state f s = s.
Proof. intros H. destruct s. unfold with_state. simpl in *. now rewrite H. Qed.

(** A record whose stored snapshot is already the current one goes through
    the loop body without a trace. *)
Lemma processBounty_current (W : World) (b : Bounty) (s : Sys) :
  snapshots s !! b_id b = Some (snapshotOf b) ->
  exec (processBounty W b) s = s.
Proof.
  intros Hcur. unfold processBounty. rewrite !exec_bind.
  unfold lookupAndDetect at 1, eval at 1, bind, gets, ret; simpl fst.
  unfold snapshots in Hcur. rewrite Hcur, detectEvents_Some.
  simpl snap_status. rewrite String.eqb_refl. simpl forEach.
  unfold exec, ret, lookupAndDetect, bind, gets, putSnapshot, modify; simpl.
  apply with_state_id. destruct (state s) as [known log]; simpl in *.
  f_equal. now apply insert_id.
Qed.

Lemma processAll_current (W : World) (bounties : list Bounty) (s : Sys) :
  (forall b, b ∈ bounties -> snapshots s !! b_id b = Some (snapshotOf b)) ->
  exec (forEach bounties (processBounty W)) s = s.
Proof.
  induction bounties as [|b rest IH]; intros Hcur; [ reflexivity | ].
  rewrite forEach_cons, processBounty_current by (apply Hcur; left).
  apply IH. intros b' Hb'. apply Hcur. now right.
Qed.

Lemma trimLog_idempotent (st : StateData) : trimLog (trimLog st) = trimLog st.
Proof.
  unfold trimLog.
  destruct (Nat.ltb_spec 1000 (length (deliveryLog st))) as [Hlt|Hle]; simpl.
  - rewrite slice_last_length.
    destruct (Nat.ltb_spec 1000 (Nat.min 1000 (length (deliveryLog st))));
      [ lia | reflexivity ].
  - destruct (Nat.ltb_spec 1000 (length (deliveryLog st)));
      [ lia | reflexivity ].
Qed.

Lemma NoDup_ids_last (before after : list Bounty) (b : Bounty) :
  NoDup (map b_id (before ++ b :: after)) -> b_id b ∉ map b_id after.
Proof.
  rewrite map_app. simpl. intros H.
  apply NoDup_app in H as (_ & _ & H). now apply NoDup_cons in H as [H _].
Qed.

Lemma saveState_eval (W : World) (s : Sys) :
  eval (saveState W) s = writeFileSync_ok W (writes s).
Proof.
  unfold saveState, eval, bind, modify; simpl.
  destruct (writeFileSync_ok W (writes s)); reflexivity.
Qed.

Lemma saveState_writes (W : World) (s : Sys) :
  writes (exec (saveState W) s) = S (writes s).
Proof.
  unfold saveState, exec, bind, modify; simpl.
  destruct (writeFileSync_ok W (writes s)); reflexivity.
Qed.

Lemma saveState_traffic (W : World) (s : Sys) :
  sent (exec (saveState W) s) = sent s
  /\ slept (exec (saveState W) s) = slept s
  /\ clockReads (exec (saveState W) s) = clockReads s
  /\ polls (exec (saveState W) s) = polls s.
Proof.
  unfold saveState, exec, bind, modify; simpl.
  destruct (writeFileSync_ok W (writes s)); repeat split.
Qed.

(** A cycle whose fetch was answered 2xx with an array of records ends
    with exactly one flush.  In memory the cycle leaves what the processing of
    the records left, the log cut to its last 1000 entries and nothing else
    changed, whether the write goes through or throws; the state file
    receives that very state when the write goes through and keeps its
    previous content when the write throws.  A cycle whose body breaks the
    loop off is not flushed: no write is attempted, the state file is as
    before, and memory holds what the processing of the records before the
    break left, the log untrimmed. *)
Theorem pollAndDispatch_flushes_once (W : World) (s : Sys) (status : Z) :
  res_ok status = true ->
  (forall bounties,
     upstream_fetch W (polls s) (bountiesUrl W)
     = upstream_response status (body_json bounties) ->
     let processed := exec (forEach bounties (processBounty W)) (with_poll s) in
     snapshots (exec (pollAndDispatch W) s) = snapshots processed
     /\ deliveryLog (state (exec (pollAndDispatch W) s))
        = slice_last 1000 (deliveryLog (state processed))
     /\ (length (deliveryLog (state (exec (pollAndDispatch W) s))) <= 1000)%nat
     /\ writes (exec (pollAndDispatch W) s) = S (writes s)
     /\ (writeFileSync_ok W (writes s) = true ->
           stateFile (exec (pollAndDispatch W) s)
           = Some (state (exec (pollAndDispatch W) s)))
     /\ (writeFileSync_ok W (writes s) = false ->
           stateFile (exec (pollAndDispatch W) s) = stateFile s))
  /\ (forall records,
        upstream_fetch W (polls s) (bountiesUrl W)
        = upstream_response status (body_broken_after records) ->
        state (exec (pollAndDispatch W) s)
        = state (exec (forEach records (processBounty W)) (with_poll s))
        /\ writes (exec (pollAndDispatch W) s) = writes s
        /\ stateFile (exec (pollAndDispatch W) s) = stateFile s).
Proof.
  intros Hok. split.
  - intros bounties Hup. cbv zeta.
    rewrite (pollAndDispatch_ok W s status bounties Hup Hok).
    set (s1 := exec (forEach bounties (processBounty W)) (with_poll s)).
    assert (Hw : writes s1 = writes s).
    { unfold s1. now rewrite (processAll_frame writes W bounties). }
    assert (Hf : stateFile s1 = stateFile s).
    { unfold s1. now rewrite (processAll_frame stateFile W bounties). }
    unfold snapshots.
    rewrite saveState_writes, saveState_stateFile, saveState_state,
      saveState_eval, Hw, Hf.
    unfold trimLog.
    destruct (Nat.ltb_spec 1000 (length (deliveryLog (state s1))))
      as [Hlt|Hle]; simpl.
    + rewrite slice_last_length.
      split; [ reflexivity | ]. split; [ reflexivity | ].
      split; [ lia | ]. split; [ reflexivity | ].
      split; intros ->; reflexivity.
    + split; [ reflexivity | ].
      split.
      { unfold slice_last.
        replace (length (deliveryLog (state s1)) - 1000)%nat with 0%nat by lia.
        reflexivity. }
      split; [ lia | ]. split; [ reflexivity | ].
      split; intros ->; reflexivity.
  - intros records Hup.
    assert (Hstep : exec (pollAndDispatch W) s
                    = exec (forEach records (processBounty W)) (with_poll s)).
    { unfold pollAndDispatch. rewrite exec_bind.
      unfold getBounties at 1, eval; simpl. fold (bountiesUrl W).
      now rewrite Hup, Hok. }
    rewrite Hstep. split; [ reflexivity | ]. split.
    + now rewrite (processAll_frame writes W records).
    + now rewrite (processAll_frame stateFile W records).
Qed.

Lemma pollAndDispatch_flushes_once_witness :
  stateFile (exec (pollAndDispatch (worldServing [bounty42seen])) trackingSys)
  = Some (state (exec (pollAndDispatch (worldServing [bounty42seen]))
                      trackingSys))
  /\ writes (exec (pollAndDispatch worldUpstreamBroken) trackingSys)
     = writes trackingSys.
Proof.
  destruct (pollAndDispatch_flushes_once (worldServing [bounty42seen])
              trackingSys 200 eq_refl) as (Hflush & _).
  destruct (Hflush [bounty42seen] eq_refl) as (_ & _ & _ & _ & Hwritten & _).
  destruct (pollAndDispatch_flushes_once worldUpstreamBroken
              trackingSys 200 eq_refl) as (_ & Hbroken).
  destruct (Hbroken [bounty42 "claimed"] eq_refl) as (_ & Hwrites & _).
  split; [ apply Hwritten; reflexivity | exact Hwrites ].
Defined.

(** Polling the same collection again changes nothing: when two cycles in a
    row fetch the same records, each id occurring once, the second cycle
    detects no event, so it sends nothing, sleeps never, reads no clock and
    leaves the snapshots and the delivery log as the first cycle left
    them. *)
Theorem pollAndDispatch_repoll_is_silent (W : World) (s : Sys)
    (status status' : Z) (bounties : list Bounty) :
  NoDup (map b_id bounties) ->
  upstream_fetch W (polls s) (bountiesUrl W)
  = upstream_response status (body_json bounties) ->
  res_ok status = true ->
  upstream_fetch W (S (polls s)) (bountiesUrl W)
  = upstream_response status' (body_json bounties) ->
  res_ok status' = true ->
  state (exec (pollAndDispatch W) (exec (pollAndDispatch W) s))
  = state (exec (pollAndDispatch W) s)
  /\ sent (exec (pollAndDispatch W) (exec (pollAndDispatch W) s))
     = sent (exec (pollAndDispatch W) s)
  /\ slept (exec (pollAndDispatch W) (exec (pollAndDispatch W) s))
     = slept (exec (pollAndDispatch W) s)
  /\ clockReads (exec (pollAndDispatch W) (exec (pollAndDispatch W) s))
     = clockReads (exec (pollAndDispatch W) s).
Proof.
  intros Hnd Hup Hok Hup' Hok'.
  set (s1 := exec (pollAndDispatch W) s).
  assert (Hs1 : s1 = exec (saveState W)
                       (exec (forEach bounties (processBounty W)) (with_poll s)))
    by apply (pollAndDispatch_ok W s status bounties Hup Hok).
  assert (Hpolls : polls s1 = S (polls s)).
  { rewrite Hs1. destruct (saveState_traffic W
      (exec (forEach bounties (processBounty W)) (with_poll s)))
      as (_ & _ & _ & ->).
    now rewrite (processAll_frame polls W bounties). }
  assert (Hcur : forall b, b ∈ bounties ->
            snapshots (with_poll s1) !! b_id b = Some (snapshotOf b)).
  { intros b Hb. apply list_elem_of_split in Hb as (before & after & ->).
    change (snapshots (with_poll s1)) with (snapshots s1).
    rewrite Hs1. unfold snapshots at 1. rewrite saveState_state.
    replace (knownBounties (trimLog (state (exec (forEach (before ++ b :: after)
               (processBounty W)) (with_poll s)))))
      with (snapshots (exec (forEach (before ++ b :: after) (processBounty W))
                            (with_poll s)))
      by (unfold snapshots, trimLog; now destruct (_ <? _)%nat).
    apply processAll_last. now apply NoDup_ids_last with (before := before). }
  rewrite <- Hpolls in Hup'.
  rewrite (pollAndDispatch_ok W s1 status' bounties Hup' Hok').
  rewrite (processAll_current W bounties (with_poll s1) Hcur).
  destruct (saveState_traffic W (with_poll s1)) as (-> & -> & -> & _).
  rewrite saveState_state. simpl state.
  split; [ | repeat split ].
  rewrite Hs1 at 1 2. rewrite saveState_state. apply trimLog_idempotent.
Qed.

Lemma pollAndDispatch_repoll_is_silent_witness :
  sent (exec (pollAndDispatch (worldServing [bounty42 "claimed"]))
          (exec (pollAndDispatch (worldServing [bounty42 "claimed"])) emptySys))
  = sent (exec (pollAndDispatch (worldServing [bounty42 "claimed"])) emptySys).
Proof.
  apply (pollAndDispatch_repoll_is_silent (worldServing [bounty42 "claimed"])
           emptySys 200 200 [bounty42 "claimed"]).
  - simpl. apply NoDup_singleton.
  - reflexivity.
  - reflexivity.
  - reflexivity.
  - reflexivity.
Defined.

Example first_poll_of_claimed_record_sends_two_events :
  map (getHeader "X-Event-Type")
    (map req_headers
       (sent (exec (pollAndDispatch (worldServing [bounty42 "claimed"]))
                   emptySys)))
  = [ Some "bounty.created"; Some "bounty.claimed" ].
Proof. vm_compute. reflexivity. Qed.

(** ** Event detection: what it reads *)

(** With a previous snapshot, the events depend on the two status strings
    and on nothing else: any change of status emits the event of the new
    status alone, whatever statuses lie between the two in the lifecycle, and
    a status other than claimed, submitted and completed emits nothing.  In
    particular a record that went from "open" straight to "completed" yields
    [completed] only. *)
Theorem detectEvents_reads_only_the_statuses
    (old old' : BountySnapshot) (b b' : Bounty) :
  (snap_status old = snap_status old' -> b_status b = b_status b' ->
     detectEvents (Some old) b = detectEvents (Some old') b')
  /\ (snap_status old <> b_status b ->
        (b_status b = "claimed" -> detectEvents (Some old) b = [bounty_claimed])
        /\ (b_status b = "submitted" ->
              detectEvents (Some old) b = [bounty_submitted])
        /\ (b_status b = "completed" ->
              detectEvents (Some old) b = [bounty_completed])
        /\ (b_status b <> "claimed" -> b_status b <> "submitted" ->
            b_status b <> "completed" -> detectEvents (Some old) b = [])).
Proof.
  rewrite !detectEvents_Some. split.
  - now intros -> ->.
  - intros Hne.
    destruct (String.eqb_spec (snap_status old) (b_status b)); [ easy | ].
    repeat split; try (intros ->; reflexivity).
    intros H1 H2 H3. unfold statusEvents.
    case_status (b_status b); congruence.
Qed.

Lemma detectEvents_reads_only_the_statuses_witness :
  detectEvents (Some (snapshotOf (bounty42 "open"))) (bounty42 "completed")
  = [bounty_completed].
Proof.
  apply (proj2 (detectEvents_reads_only_the_statuses
                  (snapshotOf (bounty42 "open")) (snapshotOf (bounty42 "open"))
                  (bounty42 "completed") (bounty42 "completed"))).
  - discriminate.
  - reflexivity.
Defined.

(** A status outside claimed, submitted and completed is inert: on a first
    sighting it yields [created] alone, and against a previous snapshot it
    yields nothing. *)
Theorem detectEvents_unknown_status_is_inert
    (old : option BountySnapshot) (b : Bounty) :
  b_status b <> "claimed" -> b_status b <> "submitted" ->
  b_status b <> "completed" ->
  detectEvents old b = match old with
                       | None => [bounty_created]
                       | Some _ => []
                       end.
Proof.
  intros H1 H2 H3.
  assert (Hs : statusEvents (b_status b) = []).
  { unfold statusEvents. case_status (b_status b); congruence. }
  destruct old as [o|].
  - rewrite detectEvents_Some, Hs. now destruct (String.eqb _ _).
  - now rewrite detectEvents_None, Hs.
Qed.

Lemma detectEvents_unknown_status_is_inert_witness :
  detectEvents None (bounty42 "open") = [bounty_created].
Proof.
  apply (detectEvents_unknown_status_is_inert None (bounty42 "open"));
    discriminate.
Defined.

(** ** The management API: proofs *)

Example splitOn_example :
  splitOn "/"%char "/webhooks/wh_1/x" = [""; "webhooks"; "wh_1"; "x"]
  /\ pathId "/webhooks/" = Some ""
  /\ pathId "/webhooks" = None.
Proof. split; [ reflexivity | split; reflexivity ]. Qed.

Lemma no_invalid_events (names : list string) :
  (0 <? length (List.filter (fun e => negb (isValidEvent e)) names))%nat
  = negb (forallb isValidEvent names).
Proof.
  induction names as [|e rest IH]; simpl; [ reflexivity | ].
  destruct (isValidEvent e); simpl; [ exact IH | reflexivity ].
Qed.

Lemma POST_route (A : AdminWorld) (rq : ApiRequest) (srv : Server) :
  rq_method rq = "POST" -> rq_pathname rq = "/webhooks" ->
  handleRequest A rq srv = registerWebhook A (rq_body rq) srv.
Proof. unfold handleRequest. now intros -> ->. Qed.

(** A registration that is not well formed (unreadable body, missing or
    empty url, events missing or not an array, or some event name that is not
    one of the four) is answered 400 and changes nothing, neither the
    in-memory list nor the registrations file. *)
Theorem register_rejects_malformed (A : AdminWorld) (rq : ApiRequest)
    (srv : Server) :
  rq_method rq = "POST" -> rq_pathname rq = "/webhooks" ->
  wellFormedRegistration (rq_body rq) = false ->
  exists message,
    handleRequest A rq srv = (json 400 (p_error message), srv).
Proof.
  intros Hm Hp Hbad. rewrite (POST_route A rq srv Hm Hp).
  unfold registerWebhook. destruct (rq_body rq) as [|o]; simpl in Hbad.
  - eexists. reflexivity.
  - destruct (f_url o) as [u|]; [ | eexists; reflexivity ].
    destruct (f_events o) as [| |names]; try (eexists; reflexivity).
    destruct (String.eqb u ""); [ eexists; reflexivity | ].
    simpl in Hbad. rewrite no_invalid_events, Hbad. simpl.
    eexists. reflexivity.
Qed.

Lemma register_rejects_malformed_witness :
  exists message,
    handleRequest (adminWorld true)
      (apiRequest "POST" "/webhooks"
         (registration "https://example.org/x" ["bounty.created"; "bounty.paid"]))
      server12
    = (json 400 (p_error message), server12).
Proof.
  apply register_rejects_malformed; reflexivity.
Defined.

Example register_invalid_event_message :
  fst (handleRequest (adminWorld true)
         (apiRequest "POST" "/webhooks"
            (registration "https://example.org/x" ["bounty.paid"; "x"]))
         server12)
  = json 400 (p_error
      "Invalid events: bounty.paid, x. Valid: bounty.created, bounty.claimed, bounty.submitted, bounty.completed").
Proof. vm_compute. reflexivity. Qed.

(** A well-formed registration is always added to the in-memory list, as
    the last endpoint, active, with the url, the events (in the order given)
    and the secret of the body.  It is answered 201 with that endpoint and
    written to the registrations file when the write goes through; when the
    write throws, the answer is 400 "Invalid JSON body" and the file is as
    before, although the endpoint stays registered in memory. *)
Theorem register_accepts_wellformed (A : AdminWorld) (rq : ApiRequest)
    (srv : Server) (o : BodyFields) (hookUrl : string) (names : list string) :
  rq_method rq = "POST" -> rq_pathname rq = "/webhooks" ->
  rq_body rq = json_object o ->
  f_url o = Some hookUrl -> hookUrl <> "" ->
  f_events o = events_array names -> forallb isValidEvent names = true ->
  let endpoint := registeredEndpoint A hookUrl names (f_secret o) srv in
  let answer := fst (handleRequest A rq srv) in
  let srv' := snd (handleRequest A rq srv) in
  webhookEndpoints (core srv') = webhookEndpoints (core srv) ++ [endpoint]
  /\ ep_active endpoint = true
  /\ ep_events endpoint = names
  /\ relayPart srv' = relayPart srv
  /\ (configWrite_ok A (configWrites srv) = true ->
        answer = json 201 (p_endpoint endpoint)
        /\ configFile srv' = Some (webhookEndpoints (core srv) ++ [endpoint]))
  /\ (configWrite_ok A (configWrites srv) = false ->
        answer = json 400 (p_error "Invalid JSON body")
        /\ configFile srv' = configFile srv).
Proof.
  intros Hm Hp Hbody Hurl Hne Hev Hvalid. cbv zeta.
  rewrite (POST_route A rq srv Hm Hp), Hbody.
  unfold registerWebhook. rewrite Hurl, Hev.
  destruct (String.eqb_spec hookUrl "") as [|_]; [ contradiction | ].
  rewrite no_invalid_events, Hvalid. simpl negb. cbv iota.
  unfold generateId, nowISO, readClock, bind, ret, saveWebhooks, with_core;
    simpl.
  fold (registeredEndpoint A hookUrl names (f_secret o) srv).
  split; [ now destruct (configWrite_ok A (configWrites srv)) | ].
  split; [ reflexivity | ].
  split; [ reflexivity | ].
  split; [ now destruct (configWrite_ok A (configWrites srv)) | ].
  split; intros ->; split; reflexivity.
Qed.

Lemma register_accepts_wellformed_witness :
  fst (handleRequest (adminWorld false)
         (apiRequest "POST" "/webhooks"
            (registration "https://example.org/x" ["bounty.claimed"]))
         server12)
  = json 400 (p_error "Invalid JSON body")
  /\ length (webhookEndpoints (core (snd (handleRequest (adminWorld false)
       (apiRequest "POST" "/webhooks"
          (registration "https://example.org/x" ["bounty.claimed"]))
       server12)))) = 3%nat.
Proof.
  destruct (register_accepts_wellformed (adminWorld false)
              (apiRequest "POST" "/webhooks"
                 (registration "https://example.org/x" ["bounty.claimed"]))
              server12 _ "https://example.org/x" ["bounty.claimed"]
              eq_refl eq_refl eq_refl eq_refl ltac:(discriminate)
              eq_refl eq_refl)
    as (Hlist & _ & _ & _ & _ & Hfail).
  split; [ apply Hfail; reflexivity | ].
  rewrite Hlist. reflexivity.
Defined.

Lemma hasId_Some (id : string) (ep : WebhookEndpoint) :
  hasId (Some id) ep = true <-> ep_id ep = id.
Proof. simpl. apply String.eqb_eq. Qed.

Lemma findIndex_none {A} (p : A -> bool) (l : list A) :
  (forall x, x ∈ l -> p x = false) -> findIndex p l = None.
Proof.
  induction l as [|x rest IH]; intros H; simpl; [ reflexivity | ].
  rewrite (H x) by left. rewrite IH; [ reflexivity | ].
  intros y Hy. apply H. now right.
Qed.

Lemma findIndex_first {A} (p : A -> bool) (before after : list A) (x : A) :
  (forall y, y ∈ before -> p y = false) -> p x = true ->
  findIndex p (before ++ x :: after) = Some (length before).
Proof.
  induction before as [|y rest IH]; intros H Hx; simpl.
  - now rewrite Hx.
  - rewrite (H y) by left. rewrite IH; [ reflexivity | | exact Hx ].
    intros z Hz. apply H. now right.
Qed.

Lemma find_none {A} (p : A -> bool) (l : list A) :
  (forall x, x ∈ l -> p x = false) -> List.find p l = None.
Proof.
  induction l as [|x rest IH]; intros H; simpl; [ reflexivity | ].
  rewrite (H x) by left. apply IH. intros y Hy. apply H. now right.
Qed.

Lemma others_lack_id (id : string) (l : list WebhookEndpoint) :
  (forall e, e ∈ l -> ep_id e <> id) ->
  forall e, e ∈ l -> hasId (Some id) e = false.
Proof.
  intros H e He. apply not_true_is_false. rewrite hasId_Some. now apply H.
Qed.

Lemma item_route (A : AdminWorld) (rq : ApiRequest) (srv : Server) :
  String.prefix "/webhooks/" (rq_pathname rq) = true ->
  (rq_method rq = "GET" ->
     handleRequest A rq srv = getWebhook (rq_pathname rq) srv)
  /\ (rq_method rq = "PATCH" ->
        handleRequest A rq srv
        = updateWebhook A (rq_pathname rq) (rq_body rq) srv)
  /\ (rq_method rq = "DELETE" ->
        handleRequest A rq srv = deleteWebhook A (rq_pathname rq) srv).
Proof.
  intros Hpre. unfold handleRequest. rewrite Hpre.
  assert (Hne : String.eqb (rq_pathname rq) "/webhooks" = false).
  { destruct (String.eqb_spec (rq_pathname rq) "/webhooks") as [E|]; auto.
    rewrite E in Hpre. discriminate. }
  repeat split; intros ->; rewrite ?Hne; reflexivity.
Qed.

(** An id that no registered endpoint carries is answered 404 by GET, PATCH
    and DELETE alike, whatever the body, and nothing changes. *)
Theorem unknown_id_is_not_found (A : AdminWorld) (rq : ApiRequest)
    (srv : Server) (id : string) :
  String.prefix "/webhooks/" (rq_pathname rq) = true ->
  pathId (rq_pathname rq) = Some id ->
  rq_method rq = "GET" \/ rq_method rq = "PATCH" \/ rq_method rq = "DELETE" ->
  (forall e, e ∈ webhookEndpoints (core srv) -> ep_id e <> id) ->
  handleRequest A rq srv = (json 404 (p_error "Not found"), srv).
Proof.
  intros Hpre Hid Hm Hnone.
  destruct (item_route A rq srv Hpre) as (Hget & Hpatch & Hdel).
  pose proof (others_lack_id id _ Hnone) as Hlack.
  destruct Hm as [Hm|[Hm|Hm]].
  - rewrite (Hget Hm). unfold getWebhook. rewrite Hid.
    now rewrite (find_none _ _ Hlack).
  - rewrite (Hpatch Hm). unfold updateWebhook. rewrite Hid.
    now rewrite (findIndex_none _ _ Hlack).
  - rewrite (Hdel Hm). unfold deleteWebhook. rewrite Hid.
    now rewrite (findIndex_none _ _ Hlack).
Qed.

Lemma unknown_id_is_not_found_witness :
  handleRequest (adminWorld true) (apiRequest "DELETE" "/webhooks/wh_9" deactivation)
    server12
  = (json 404 (p_error "Not found"), server12).
Proof.
  apply (unknown_id_is_not_found (adminWorld true)
           (apiRequest "DELETE" "/webhooks/wh_9" deactivation) server12 "wh_9").
  - reflexivity.
  - reflexivity.
  - right. right. reflexivity.
  - intros e He. simpl in He.
    apply elem_of_cons in He as [->|He];
      [ discriminate | apply list_elem_of_singleton in He as ->; discriminate ].
Defined.

(** DELETE removes the first endpoint that carries the id and no other: the
    endpoints before and after it keep their order.  The answer is 204 and
    the registrations file receives the shortened list when the write goes
    through; when the write throws, the exception escapes the handler, the
    file is as before, and the endpoint is gone from memory all the same. *)
Theorem delete_removes_first_match (A : AdminWorld) (rq : ApiRequest)
    (srv : Server) (id : string) (before after : list WebhookEndpoint)
    (ep : WebhookEndpoint) :
  rq_method rq = "DELETE" ->
  String.prefix "/webhooks/" (rq_pathname rq) = true ->
  pathId (rq_pathname rq) = Some id ->
  webhookEndpoints (core srv) = before ++ ep :: after ->
  ep_id ep = id ->
  (forall e, e ∈ before -> ep_id e <> id) ->
  let answer := fst (handleRequest A rq srv) in
  let srv' := snd (handleRequest A rq srv) in
  webhookEndpoints (core srv') = before ++ after
  /\ relayPart srv' = relayPart srv
  /\ (configWrite_ok A (configWrites srv) = true ->
        answer = json 204 p_empty
        /\ configFile srv' = Some (before ++ after))
  /\ (configWrite_ok A (configWrites srv) = false ->
        answer = handler_throws /\ configFile srv' = configFile srv).
Proof.
  intros Hm Hpre Hid Hlist Hep Hbefore. cbv zeta.
  destruct (item_route A rq srv Hpre) as (_ & _ & Hdel).
  rewrite (Hdel Hm). unfold deleteWebhook. rewrite Hid, Hlist.
  rewrite (findIndex_first _ before after ep
             (others_lack_id id _ Hbefore) (proj2 (hasId_Some id ep) Hep)).
  rewrite delete_middle.
  unfold saveWebhooks, with_core, relayPart; simpl.
  destruct (configWrite_ok A (configWrites srv)); simpl;
    repeat split; intros; try discriminate; reflexivity.
Qed.

Lemma delete_removes_first_match_witness :
  webhookEndpoints (core (snd (handleRequest (adminWorld true)
    (apiRequest "DELETE" "/webhooks/wh_1" json_unreadable) server12)))
  = [endpoint2].
Proof.
  apply (delete_removes_first_match (adminWorld true)
           (apiRequest "DELETE" "/webhooks/wh_1" json_unreadable) server12
           "wh_1" [] [endpoint2] endpoint1); try reflexivity.
  intros e He. now apply elem_of_nil in He.
Defined.

Lemma updateWebhook_at (A : AdminWorld) (pathname : string) (srv : Server)
    (id : string) (before after : list WebhookEndpoint) (ep : WebhookEndpoint)
    (o : BodyFields) :
  pathId pathname = Some id ->
  webhookEndpoints (core srv) = before ++ ep :: after ->
  ep_id ep = id ->
  (forall e, e ∈ before -> ep_id e <> id) ->
  f_events o <> events_not_array ->
  updateWebhook A pathname (json_object o) srv
  = (if configWrite_ok A (configWrites srv)
     then json 200 (p_endpoint (applyUpdates o (givenEvents o) ep))
     else json 400 (p_error "Invalid JSON body"),
     snd (saveWebhooks A
            (with_core
               (with_endpoints
                  (before ++ applyUpdates o (givenEvents o) ep :: after))
               srv))).
Proof.
  intros Hid Hlist Hep Hbefore Harray.
  unfold updateWebhook. rewrite Hid, Hlist.
  rewrite (findIndex_first _ before after ep
             (others_lack_id id _ Hbefore) (proj2 (hasId_Some id ep) Hep)).
  rewrite list_lookup_middle by reflexivity.
  rewrite insert_app_r_alt, Nat.sub_diag by lia. simpl insert.
  unfold saveWebhooks, with_core; simpl.
  destruct (f_events o) eqn:Hev; [ | contradiction | ];
    now destruct (configWrite_ok A (configWrites srv)).
Qed.

(** PATCH rewrites the first endpoint that carries the id, in place, and
    leaves every other endpoint alone.  The id and the creation time never
    change; an absent or empty [url] keeps the old one, any [active] and any
    [secret] given (the empty secret too) are taken over, and any [events]
    array given is stored as it is, unchecked: the empty array and names
    outside the four valid ones as well.  The updated endpoint is answered
    with 200 when the registrations file could be written; when the write
    throws the answer is 400 "Invalid JSON body", the file is as before, and
    the update stays in memory.  (A body whose [events] is truthy without
    being an array is not covered.) *)
Theorem patch_updates_first_match (A : AdminWorld) (rq : ApiRequest)
    (srv : Server) (id : string) (before after : list WebhookEndpoint)
    (ep : WebhookEndpoint) (o : BodyFields) :
  rq_method rq = "PATCH" ->
  String.prefix "/webhooks/" (rq_pathname rq) = true ->
  pathId (rq_pathname rq) = Some id ->
  webhookEndpoints (core srv) = before ++ ep :: after ->
  ep_id ep = id ->
  (forall e, e ∈ before -> ep_id e <> id) ->
  rq_body rq = json_object o ->
  f_events o <> events_not_array ->
  let answer := fst (handleRequest A rq srv) in
  let srv' := snd (handleRequest A rq srv) in
  exists ep',
    webhookEndpoints (core srv') = before ++ ep' :: after
    /\ ep_id ep' = ep_id ep /\ ep_createdAt ep' = ep_createdAt ep
    /\ (f_url o = None \/ f_url o = Some "" -> ep_url ep' = ep_url ep)
    /\ (forall u, f_url o = Some u -> u <> "" -> ep_url ep' = u)
    /\ ep_active ep' = default (ep_active ep) (f_active o)
    /\ ep_secret ep' = (if f_secret o is Some _ then f_secret o
                        else ep_secret ep)
    /\ (forall names, f_events o = events_array names -> ep_events ep' = names)
    /\ (f_events o = events_absent -> ep_events ep' = ep_events ep)
    /\ relayPart srv' = relayPart srv
    /\ (configWrite_ok A (configWrites srv) = true ->
          answer = json 200 (p_endpoint ep')
          /\ configFile srv' = Some (before ++ ep' :: after))
    /\ (configWrite_ok A (configWrites srv) = false ->
          answer = json 400 (p_error "Invalid JSON body")
          /\ configFile srv' = configFile srv).
Proof.
  intros Hm Hpre Hid Hlist Hep Hbefore Hbody Harray. cbv zeta.
  destruct (item_route A rq srv Hpre) as (_ & Hpatch & _).
  rewrite (Hpatch Hm), Hbody.
  rewrite (updateWebhook_at A _ srv id before after ep o
             Hid Hlist Hep Hbefore Harray).
  exists (applyUpdates o (givenEvents o) ep).
  unfold saveWebhooks, with_core, relayPart; simpl.
  split; [ now destruct (configWrite_ok A (configWrites srv)) | ].
  split; [ reflexivity | ]. split; [ reflexivity | ].
  split; [ intros [->| ->]; reflexivity | ].
  split.
  { intros u -> Hu. destruct (String.eqb_spec u ""); [ contradiction | easy ]. }
  split; [ now destruct (f_active o) | ].
  split; [ now destruct (f_secret o) | ].
  split; [ intros names Hev; unfold givenEvents; now rewrite Hev | ].
  split; [ intros Hev; unfold givenEvents; now rewrite Hev | ].
  split; [ now destruct (configWrite_ok A (configWrites srv)) | ].
  split; intros ->; split; reflexivity.
Qed.

Lemma patch_updates_first_match_witness :
  exists ep',
    webhookEndpoints (core (snd (handleRequest (adminWorld true)
      (apiRequest "PATCH" "/webhooks/wh_2" (json_object paidFields)) server12)))
    = [endpoint1; ep']
    /\ ep_active ep' = false
    /\ ep_events ep' = ["bounty.paid"].
Proof.
  destruct (patch_updates_first_match (adminWorld true)
              (apiRequest "PATCH" "/webhooks/wh_2" (json_object paidFields))
              server12 "wh_2" [endpoint1] [] endpoint2 paidFields
              eq_refl eq_refl eq_refl eq_refl eq_refl)
    as (ep' & Hlist & _ & _ & _ & _ & Hactive & _ & Hevents & _).
  - intros e He. apply list_elem_of_singleton in He as ->. discriminate.
  - reflexivity.
  - discriminate.
  - exists ep'. split; [ exact Hlist | ]. split; [ exact Hactive | ].
    now apply Hevents.
Defined.

(** ** Delivery log queries *)

Lemma js_slice_last {A} (z : Z) (l : list A) :
  0 < z -> js_slice (- z) l = slice_last (Z.to_nat z) l.
Proof.
  intros Hz. unfold js_slice, slice_last.
  destruct (Z.ltb_spec (- z) 0); [ | lia ].
  f_equal. lia.
Qed.

Lemma js_slice_drop {A} (z : Z) (l : list A) :
  0 <= z -> js_slice z l = drop (Z.to_nat z) l.
Proof.
  intros Hz. unfold js_slice.
  destruct (Z.ltb_spec z 0); [ lia | ].
  destruct (Z.le_ge_cases z (Z.of_nat (length l))).
  - f_equal. lia.
  - rewrite !drop_ge by lia. reflexivity.
Qed.

(** GET /deliveries answers the most recent [limit] entries of the log,
    oldest first, and the whole log when it is shorter; a limit that is
    missing, not a number or zero counts as 50.  A negative limit -k does not
    bound the answer: it is the log without its first k entries.  The query
    changes nothing. *)
Theorem deliveries_limit (A : AdminWorld) (rq : ApiRequest) (srv : Server) :
  rq_method rq = "GET" -> rq_pathname rq = "/deliveries" ->
  exists entries,
    handleRequest A rq srv = (json 200 (p_deliveries entries), srv)
    /\ (rq_limit rq = js_NaN \/ rq_limit rq = js_int 0 ->
          entries = slice_last 50 (deliveryLog (state (core srv))))
    /\ (forall z, rq_limit rq = js_int z -> 0 < z ->
          entries = slice_last (Z.to_nat z) (deliveryLog (state (core srv)))
          /\ Z.of_nat (length entries) <= z)
    /\ (forall z, rq_limit rq = js_int z -> z < 0 ->
          entries = drop (Z.to_nat (- z)) (deliveryLog (state (core srv)))).
Proof.
  intros Hm Hp. unfold handleRequest. rewrite Hm, Hp. simpl.
  unfold getDeliveries. eexists. split; [ reflexivity | ].
  split; [ | split ].
  - intros [->| ->]; simpl; now rewrite (js_slice_last 50).
  - intros z -> Hz. simpl. destruct (Z.eqb_spec z 0); [ lia | ].
    rewrite js_slice_last by exact Hz.
    split; [ reflexivity | ]. rewrite slice_last_length. lia.
  - intros z -> Hz. simpl. destruct (Z.eqb_spec z 0); [ lia | ].
    apply js_slice_drop. lia.
Qed.

Lemma deliveries_limit_witness :
  exists entries,
    handleRequest (adminWorld true)
      {| rq_method := "GET"; rq_pathname := "/deliveries";
         rq_limit := js_int (-58); rq_body := json_unreadable |} server12
    = (json 200 (p_deliveries entries), server12)
    /\ map le_attempts entries = [58%nat; 59%nat].
Proof.
  destruct (deliveries_limit (adminWorld true)
              {| rq_method := "GET"; rq_pathname := "/deliveries";
                 rq_limit := js_int (-58); rq_body := json_unreadable |}
              server12 eq_refl eq_refl)
    as (entries & Hanswer & _ & _ & Hneg).
  exists entries. split; [ exact Hanswer | ].
  rewrite (Hneg (-58) eq_refl ltac:(lia)). reflexivity.
Defined.

(** ** What the management API leaves alone *)

Lemma saveWebhooks_relay (A : AdminWorld) (srv : Server) :
  relayPart (snd (saveWebhooks A srv)) = relayPart srv.
Proof. unfold saveWebhooks. now destruct (configWrite_ok A _). Qed.

Lemma registerWebhook_relay (A : AdminWorld) (body : ApiBody) (srv : Server) :
  relayPart (snd (registerWebhook A body srv)) = relayPart srv.
Proof.
  unfold registerWebhook.
  destruct body as [|o]; [ reflexivity | ].
  destruct (f_url o) as [u|]; [ | reflexivity ].
  destruct (f_events o) as [| |names]; try reflexivity.
  destruct (String.eqb u ""); [ reflexivity | ].
  destruct (0 <? _)%nat; [ reflexivity | ].
  unfold generateId, nowISO, readClock, bind, ret, saveWebhooks, with_core;
    simpl.
  now destruct (configWrite_ok A (configWrites srv)).
Qed.

Lemma updateWebhook_relay (A : AdminWorld) (pathname : string) (body : ApiBody)
    (srv : Server) :
  relayPart (snd (updateWebhook A pathname body srv)) = relayPart srv.
Proof.
  unfold updateWebhook.
  destruct (findIndex _ _) as [idx|]; [ | reflexivity ].
  destruct body as [|o]; [ reflexivity | ].
  destruct (f_events o);
    destruct (webhookEndpoints (core srv) !! idx) as [current|];
    try reflexivity;
    unfold saveWebhooks, with_core; simpl;
    now destruct (configWrite_ok A (configWrites srv)).
Qed.

Lemma deleteWebhook_relay (A : AdminWorld) (pathname : string) (srv : Server) :
  relayPart (snd (deleteWebhook A pathname srv)) = relayPart srv.
Proof.
  unfold deleteWebhook.
  destruct (findIndex _ _) as [idx|]; [ | reflexivity ].
  unfold saveWebhooks, with_core; simpl.
  now destruct (configWrite_ok A (configWrites srv)).
Qed.

Lemma getWebhook_server (pathname : string) (srv : Server) :
  snd (getWebhook pathname srv) = srv.
Proof. unfold getWebhook. now destruct (List.find _ _). Qed.

(** No request to the management API ever changes the snapshots, the
    delivery log or the state file, sends anything to a subscriber, or polls
    the upstream; a GET changes nothing at all; and a request that matches no
    route (any other method, for one) is answered 404 "Not found". *)
Theorem handleRequest_leaves_the_relay_alone (A : AdminWorld)
    (rq : ApiRequest) (srv : Server) :
  relayPart (snd (handleRequest A rq srv)) = relayPart srv
  /\ (rq_method rq = "GET" -> snd (handleRequest A rq srv) = srv)
  /\ (rq_method rq <> "GET" -> rq_method rq <> "POST" ->
      rq_method rq <> "PATCH" -> rq_method rq <> "DELETE" ->
      handleRequest A rq srv = (json 404 (p_error "Not found"), srv)).
Proof.
  split; [ | split ].
  - unfold handleRequest.
    repeat match goal with
    | |- context [if ?c then _ else _] => destruct c
    end;
      auto using registerWebhook_relay, updateWebhook_relay,
                 deleteWebhook_relay;
      try reflexivity.
    now rewrite getWebhook_server.
  - intros Hm. unfold handleRequest. rewrite Hm. simpl.
    repeat match goal with
    | |- context [if ?c then _ else _] => destruct c
    end; try reflexivity.
    apply getWebhook_server.
  - intros H1 H2 H3 H4. unfold handleRequest.
    apply String.eqb_neq in H1, H2, H3, H4.
    now rewrite H1, H2, H3, H4.
Qed.

Lemma handleRequest_leaves_the_relay_alone_witness :
  handleRequest (adminWorld true) (apiRequest "PUT" "/webhooks/wh_1" deactivation)
    server12
  = (json 404 (p_error "Not found"), server12).
Proof.
  apply (handleRequest_leaves_the_relay_alone (adminWorld true)
           (apiRequest "PUT" "/webhooks/wh_1" deactivation) server12);
    discriminate.
Defined.

(** ** The API and the dispatch together *)





(** ** Restarts *)

(** A cycle in which every fetched record already has its current snapshot
    stored only counts the poll and flushes. *)
Lemma pollAndDispatch_current (W : World) (s : Sys) (status : Z)
    (bounties : list Bounty) :
  upstream_fetch W (polls s) (bountiesUrl W)
  = upstream_response status (body_json bounties) ->
  res_ok status = true ->
  (forall b, b ∈ bounties -> snapshots s !! b_id b = Some (snapshotOf b)) ->
  exec (pollAndDispatch W) s = exec (saveState W) (with_poll s).
Proof.
  intros Hup Hok Hcur.
  rewrite (pollAndDispatch_ok W s status bounties Hup Hok).
  now rewrite (processAll_current W bounties (with_poll s)).
Qed.

Lemma pollAndDispatch_snapshots_current (W : World) (s : Sys) (status : Z)
    (bounties : list Bounty) :
  NoDup (map b_id bounties) ->
  upstream_fetch W (polls s) (bountiesUrl W)
  = upstream_response status (body_json bounties) ->
  res_ok status = true ->
  forall b, b ∈ bounties ->
    snapshots (exec (pollAndDispatch W) s) !! b_id b = Some (snapshotOf b).
Proof.
  intros Hnd Hup Hok b Hb.
  rewrite (pollAndDispatch_ok W s status bounties Hup Hok).
  apply list_elem_of_split in Hb as (before & after & ->).
  unfold snapshots at 1. rewrite saveState_state.
  replace (knownBounties (trimLog (state (exec (forEach (before ++ b :: after)
             (processBounty W)) (with_poll s)))))
    with (snapshots (exec (forEach (before ++ b :: after) (processBounty W))
                          (with_poll s)))
    by (unfold snapshots, trimLog; now destruct (_ <? _)%nat).
  apply processAll_last. now apply NoDup_ids_last with (before := before).
Qed.

Lemma pollAndDispatch_polls (W : World) (s : Sys) (status : Z)
    (bounties : list Bounty) :
  upstream_fetch W (polls s) (bountiesUrl W)
  = upstream_response status (body_json bounties) ->
  res_ok status = true ->
  polls (exec (pollAndDispatch W) s) = S (polls s).
Proof.
  intros Hup Hok. rewrite (pollAndDispatch_ok W s status bounties Hup Hok).
  destruct (saveState_traffic W
              (exec (forEach bounties (processBounty W)) (with_poll s)))
    as (_ & _ & _ & ->).
  now rewrite (processAll_frame polls W bounties).
Qed.

(** [loadState] reads back what [saveState] wrote: a process restarted after
    a cycle whose flush went through starts from the snapshots and the log
    that cycle left, and when its first poll fetches the same records (each
    id once) it sends nothing: no event is notified twice across the
    restart. *)
Theorem restart_after_flush_is_silent (W : World) (srv : Server)
    (status status' : Z) (bounties : list Bounty) :
  NoDup (map b_id bounties) ->
  upstream_fetch W (polls (core srv)) (bountiesUrl W)
  = upstream_response status (body_json bounties) ->
  res_ok status = true ->
  writeFileSync_ok W (writes (core srv)) = true ->
  upstream_fetch W (S (polls (core srv))) (bountiesUrl W)
  = upstream_response status' (body_json bounties) ->
  res_ok status' = true ->
  let stopped := with_core (exec (pollAndDispatch W)) srv in
  let restarted := boot stopped in
  let polled := with_core (exec (pollAndDispatch W)) restarted in
  state (core restarted) = state (core stopped)
  /\ state (core polled) = state (core stopped)
  /\ sent (core polled) = sent (core stopped).
Proof.
  intros Hnd Hup Hok Hwrite Hup' Hok'. cbv zeta.
  set (s1 := exec (pollAndDispatch W) (core srv)).
  assert (Hfile : stateFile s1 = Some (state s1)).
  { unfold s1. rewrite (pollAndDispatch_ok W _ status bounties Hup Hok).
    rewrite saveState_stateFile, saveState_state, saveState_eval.
    rewrite (processAll_frame writes W bounties) by reflexivity.
    simpl writes. now rewrite Hwrite. }
  assert (Htrim : trimLog (state s1) = state s1).
  { unfold s1. rewrite (pollAndDispatch_ok W _ status bounties Hup Hok).
    rewrite saveState_state. apply trimLog_idempotent. }
  assert (Hboot : exists eps,
            core (boot (with_core (exec (pollAndDispatch W)) srv))
            = with_endpoints eps (with_state (fun _ => state s1)
                                    (freshProcess s1))).
  { unfold boot, loadWebhooks, readConfigFile, with_core. simpl.
    fold s1. unfold loadState, readStateFile, exec. simpl. rewrite Hfile.
    destruct (configFile srv) as [l|]; simpl.
    - exists l. reflexivity.
    - exists []. reflexivity. }
  destruct Hboot as (eps & Hboot).
  assert (Hcore : forall f x, core (with_core f x) = f (core x))
    by reflexivity.
  rewrite !Hcore, Hboot. fold s1.
  set (s2 := with_endpoints eps (with_state (fun _ => state s1)
                                   (freshProcess s1))).
  split; [ reflexivity | ].
  assert (Hpolls : polls s2 = S (polls (core srv))).
  { unfold s2. simpl.
    apply (pollAndDispatch_polls W _ status bounties Hup Hok). }
  rewrite <- Hpolls in Hup'.
  rewrite (pollAndDispatch_current W s2 status' bounties Hup' Hok').
  - rewrite saveState_state.
    destruct (saveState_traffic W (with_poll s2)) as (-> & _).
    split; [ exact Htrim | reflexivity ].
  - intros b Hb.
    apply (pollAndDispatch_snapshots_current W _ status bounties Hnd Hup Hok b Hb).
Qed.

Lemma restart_after_flush_is_silent_witness :
  sent (core (with_core (exec (pollAndDispatch (worldServing [bounty42 "claimed"])))
                (boot (with_core
                         (exec (pollAndDispatch (worldServing [bounty42 "claimed"])))
                         server12))))
  = sent (core (with_core
                  (exec (pollAndDispatch (worldServing [bounty42 "claimed"])))
                  server12)).
Proof.
  apply (restart_after_flush_is_silent (worldServing [bounty42 "claimed"])
           server12 200 200 [bounty42 "claimed"]); try reflexivity.
  simpl. apply NoDup_singleton.
Defined.



(** ** Registration and lookup together *)

Lemma registerWebhook_list (A : AdminWorld) (srv : Server) (o : BodyFields)
    (hookUrl : string) (names : list string) :
  f_url o = Some hookUrl -> hookUrl <> "" ->
  f_events o = events_array names -> forallb isValidEvent names = true ->
  webhookEndpoints (core (snd (registerWebhook A (json_object o) srv)))
  = webhookEndpoints (core srv)
    ++ [registeredEndpoint A hookUrl names (f_secret o) srv].
Proof.
  intros Hurl Hne Hev Hvalid.
  unfold registerWebhook. rewrite Hurl, Hev.
  destruct (String.eqb_spec hookUrl "") as [|_]; [ contradiction | ].
  rewrite no_invalid_events, Hvalid. simpl negb. cbv iota.
  unfold generateId, nowISO, readClock, bind, ret, saveWebhooks, with_core;
    simpl.
  now destruct (configWrite_ok A (configWrites srv)).
Qed.

Lemma find_last {A} (p : A -> bool) (l : list A) (x : A) :
  (forall y, y ∈ l -> p y = false) -> p x = true ->
  List.find p (l ++ [x]) = Some x.
Proof.
  induction l as [|y rest IH]; intros H Hx; simpl.
  - now rewrite Hx.
  - rewrite (H y) by left. apply IH; [ | exact Hx ].
    intros z Hz. apply H. now right.
Qed.

(** What has been registered can be fetched: after a well-formed
    registration, a GET of the new endpoint's id answers 200 with that very
    endpoint, provided no older endpoint carries the same id (the older one
    would be found first). *)
Theorem registered_endpoint_can_be_fetched (A : AdminWorld)
    (post get : ApiRequest) (srv : Server) (o : BodyFields) (hookUrl : string)
    (names : list string) :
  rq_method post = "POST" -> rq_pathname post = "/webhooks" ->
  rq_body post = json_object o ->
  f_url o = Some hookUrl -> hookUrl <> "" ->
  f_events o = events_array names -> forallb isValidEvent names = true ->
  rq_method get = "GET" ->
  String.prefix "/webhooks/" (rq_pathname get) = true ->
  pathId (rq_pathname get)
  = Some (ep_id (registeredEndpoint A hookUrl names (f_secret o) srv)) ->
  (forall e, e ∈ webhookEndpoints (core srv) ->
     ep_id e <> ep_id (registeredEndpoint A hookUrl names (f_secret o) srv)) ->
  fst (handleRequest A get (snd (handleRequest A post srv)))
  = json 200 (p_endpoint (registeredEndpoint A hookUrl names (f_secret o) srv)).
Proof.
  intros Hm Hp Hbody Hurl Hne Hev Hvalid Hget Hpre Hid Hfresh.
  rewrite (POST_route A post srv Hm Hp), Hbody.
  destruct (item_route A get (snd (registerWebhook A (json_object o) srv)) Hpre)
    as (Hroute & _ & _).
  rewrite (Hroute Hget). unfold getWebhook.
  rewrite (registerWebhook_list A srv o hookUrl names Hurl Hne Hev Hvalid), Hid.
  rewrite find_last; [ reflexivity | | ].
  - now apply others_lack_id.
  - now apply hasId_Some.
Qed.

Lemma registered_endpoint_can_be_fetched_witness :
  exists ep,
    fst (handleRequest (adminWorld true)
           (apiRequest "GET" "/webhooks/wh_1705312800000_0" json_unreadable)
           (snd (handleRequest (adminWorld true)
                   (apiRequest "POST" "/webhooks"
                      (registration "https://example.org/x" ["bounty.claimed"]))
                   server12)))
    = json 200 (p_endpoint ep)
    /\ ep_url ep = "https://example.org/x".
Proof.
  eexists. split.
  - apply (registered_endpoint_can_be_fetched (adminWorld true)
             (apiRequest "POST" "/webhooks"
                (registration "https://example.org/x" ["bounty.claimed"]))
             (apiRequest "GET" "/webhooks/wh_1705312800000_0" json_unreadable)
             server12 _ "https://example.org/x" ["bounty.claimed"]
             eq_refl eq_refl eq_refl eq_refl ltac:(discriminate)
             eq_refl eq_refl eq_refl eq_refl).
    + vm_compute. reflexivity.
    + intros e He. simpl in He.
      apply elem_of_cons in He as [->|He];
        [ vm_compute; discriminate
        | apply list_elem_of_singleton in He as ->; vm_compute; discriminate ].
  - reflexivity.
Defined.

(** ** The poll cycle: failing fetches *)



